(** * ChaseFlow AI: the dashboard's utility layer and the chase engine

    The first half embeds the JavaScript utilities of the dashboard
    ([utils/formatters], [utils/api.js] and the agent cards of
    [AgentMonitor.jsx]).  The second half models the Chase Orchestration
    Engine of the design document, whose implementation lives in the
    backend. *)

From Stdlib Require Import ZArith QArith List String Ascii Bool Lia Lqa.
From Stdlib Require Import Numbers.DecimalString Qpower.
Import ListNotations.

Local Open Scope string_scope.
Local Open Scope Z_scope.

(* ================================================================== *)
(** ** JavaScript values *)
(* ================================================================== *)

Module Js.

(** Numbers.  Every number the utilities compute with is a time value (at
    most 8.64e15 in magnitude), the difference of the clock and a time
    value, or the floor of a quotient of such a difference: an
    integer-valued double of magnitude below 2^53, or NaN.  On that range
    subtraction is exact and the floor of the rounded quotient is the
    floor of the exact one, so an integer is carried as a [Z]; fractions
    are outside the model. *)
Inductive num : Type :=
| NaN
| Int (z : Z).

#[warnings="-register-all"] Inductive value : Type :=
| VUndefined
| VNull
| VBool (b : bool)
| VNum (n : num)
| VStr (s : string)
| VArr (items : list value)
| VObj (props : list (string * value)).

(** ToBoolean: what [!x], [x || y] and [x && y] test. *)
Definition truthy (v : value) : bool :=
  match v with
  | VUndefined | VNull => false
  | VBool b => b
  | VNum NaN => false
  | VNum (Int z) => negb (z =? 0)
  | VStr s => negb (s =? "")%string
  | VArr _ | VObj _ => true
  end.

(** [a || b] *)
Definition or (a b : value) : value := if truthy a then a else b.

(** [a === b] with [b] a string literal. *)
Definition strict_eq_str (a : value) (lit : string) : bool :=
  match a with
  | VStr s => (s =? lit)%string
  | _ => false
  end.

(** Property read [o.k]: the first binding of [k] in an object,
    [undefined] when there is none or when [o] is another non-nullish
    value without that property. *)
Fixpoint lookup (k : string) (props : list (string * value)) : value :=
  match props with
  | [] => VUndefined
  | (k', v) :: rest => if (k' =? k)%string then v else lookup k rest
  end.

Definition prop (o : value) (k : string) : value :=
  match o with
  | VObj props => lookup k props
  | _ => VUndefined
  end.

(** Number::toString on the integer range, and "NaN". *)
Definition dec (z : Z) : string := NilZero.string_of_int (Z.to_int z).

Definition num_to_string (n : num) : string :=
  match n with
  | NaN => "NaN"
  | Int z => dec z
  end.

(** ToString, as a template literal applies it to a substitution. *)
Fixpoint to_string (v : value) : string :=
  match v with
  | VUndefined => "undefined"
  | VNull => "null"
  | VBool true => "true"
  | VBool false => "false"
  | VNum n => num_to_string n
  | VStr s => s
  | VArr items =>
      (* Array.prototype.join: null and undefined elements print as "" *)
      (fix join (l : list value) : string :=
         let elem x :=
           match x with
           | VUndefined | VNull => ""
           | _ => to_string x
           end in
         match l with
         | [] => ""
         | [x] => elem x
         | x :: rest => elem x ++ "," ++ join rest
         end) items
  | VObj _ => "[object Object]"
  end.

(** [a - b] on numbers. *)
Definition sub (a b : num) : num :=
  match a, b with
  | Int x, Int y => Int (x - y)
  | _, _ => NaN
  end.

(** [Math.floor(a / k)] for a positive integer literal [k]. *)
Definition floor_div (a : num) (k : Z) : num :=
  match a with
  | Int x => Int (x / k)
  | NaN => NaN
  end.

(** [a < b]: false as soon as one side is NaN. *)
Definition lt (a b : num) : bool :=
  match a, b with
  | Int x, Int y => x <? y
  | _, _ => false
  end.

End Js.

(* ================================================================== *)
(** ** utils/formatters *)
(* ================================================================== *)

Module Formatters.
Import Js.

(** TimeClip: a time value outside +-8.64e15 ms is an invalid date. *)
Definition time_clip (n : num) : num :=
  match n with
  | Int z => if Z.abs z <=? 8640000000000000 then Int z else NaN
  | NaN => NaN
  end.

Section WithHost.
(** What the host provides: [Date.parse] (NaN for a string it cannot
    read), the clock read by [new Date()], in ms since the epoch, and
    [toLocaleDateString('en-GB', {day: '2-digit', month: 'short',
    year: 'numeric'})], which depends on the host's time zone. *)
Variable date_parse : string -> num.
Variable now : Z.
Variable toLocaleDateString : num -> string.

(** The time value of [new Date(v)]: a string is parsed, an object is
    first turned into a string, anything else is turned into a
    number. *)
Definition new_Date (v : value) : num :=
  match v with
  | VStr s => time_clip (date_parse s)
  | VArr _ | VObj _ => time_clip (date_parse (to_string v))
  | VUndefined => NaN
  | VNull => Int 0
  | VBool b => Int (if b then 1 else 0)
  | VNum n => time_clip n
  end.

Definition formatDate (dateString : value) : string :=
  if negb (truthy dateString) then "N/A"
  else toLocaleDateString (new_Date dateString).

Definition formatRelativeTime (dateString : value) : string :=
  if negb (truthy dateString) then "N/A"
  else
    let diffMs := sub (Int now) (new_Date dateString) in
    let diffMins := floor_div diffMs 60000 in
    let diffHours := floor_div diffMs 3600000 in
    let diffDays := floor_div diffMs 86400000 in
    if lt diffMins (Int 1) then "Just now"
    else if lt diffMins (Int 60) then num_to_string diffMins ++ "m ago"
    else if lt diffHours (Int 24) then num_to_string diffHours ++ "h ago"
    else num_to_string diffDays ++ "d ago".
End WithHost.

End Formatters.

(* ================================================================== *)
(** ** utils/api.js *)
(* ================================================================== *)

Module Api.
Import Js.

Definition API_BASE : string := "http://localhost:8000/api".

Inductive method : Type := GET | POST.

(** What [fetch] is called with: the URL and the [init] object ([GET],
    no headers and no body when there is none). *)
Record request : Type := {
  url : string;
  meth : method;
  headers : list (string * string);
  body : option string
}.

(** What the code reads of a Response: [ok], and [json()], which gives
    the parsed body, or [None] when the body is not JSON. *)
Record response : Type := {
  ok : bool;
  json : option value
}.

Inductive error : Type :=
| Error (message : string)
| TypeError
| SyntaxError.

Inductive outcome (A : Type) : Type :=
| Resolved (a : A)
| Rejected (e : error).
Arguments Resolved {A} a.
Arguments Rejected {A} e.

(** The server as the page sees it: the answer to a request, which may
    depend on the requests sent before; [None] is a network failure. *)
Definition network : Type := list request -> request -> option response.

(** An async function: it runs against a network, appends the requests
    it issues to the log of those sent so far, and settles. *)
Definition async (A : Type) : Type :=
  network -> list request -> list request * outcome A.

Definition ret {A} (a : A) : async A := fun _ log => (log, Resolved a).
Definition throw {A} (e : error) : async A := fun _ log => (log, Rejected e).
Definition bind {A B} (m : async A) (k : A -> async B) : async B :=
  fun net log =>
    match m net log with
    | (log', Resolved a) => k a net log'
    | (log', Rejected e) => (log', Rejected e)
    end.

(** [try { m } catch (error) { h }] *)
Definition catch {A} (m : async A) (h : error -> async A) : async A :=
  fun net log =>
    match m net log with
    | (log', Resolved a) => (log', Resolved a)
    | (log', Rejected e) => h e net log'
    end.

Notation "x <- m ;; k" := (bind m (fun x => k))
  (at level 61, m at next level, right associativity).

(** [fetch]: one request on the wire; a network failure rejects with a
    TypeError. *)
Definition fetch (r : request) : async response :=
  fun net log =>
    match net log r with
    | Some resp => ((log ++ [r])%list, Resolved resp)
    | None => ((log ++ [r])%list, Rejected TypeError)
    end.

(** [response.json()] *)
Definition response_json (r : response) : async value :=
  match json r with
  | Some v => ret v
  | None => throw SyntaxError
  end.

(** *** JSON.stringify *)

Definition hex_digit (n : N) : ascii :=
  ascii_of_N (if (n <? 10)%N then 48 + n else 87 + n)%N.

(** QuoteJSONString on one code unit. *)
Definition escape_char (c : ascii) : string :=
  let n := N_of_ascii c in
  if (n =? 34)%N then String "\" (String c "")
  else if (n =? 92)%N then "\\"
  else if (n =? 8)%N then "\b"
  else if (n =? 9)%N then "\t"
  else if (n =? 10)%N then "\n"
  else if (n =? 12)%N then "\f"
  else if (n =? 13)%N then "\r"
  else if (n <? 32)%N then
    "\u00" ++ String (hex_digit (n / 16)) (String (hex_digit (n mod 16)) "")
  else String c "".

Fixpoint escape (s : string) : string :=
  match s with
  | EmptyString => ""
  | String c rest => escape_char c ++ escape rest
  end.

Definition quote (s : string) : string :=
  String (ascii_of_N 34) (escape s) ++ String (ascii_of_N 34) "".

(** A value inside an array or an object.  In an array [undefined]
    prints as [null]; a property whose value is [undefined] is left
    out; NaN prints as [null]. *)
Fixpoint stringify_in (v : value) : string :=
  match v with
  | VUndefined | VNull | VNum NaN => "null"
  | VBool true => "true"
  | VBool false => "false"
  | VNum (Int z) => dec z
  | VStr s => quote s
  | VArr items =>
      "[" ++ String.concat ","
               ((fix elems (l : list value) : list string :=
                   match l with
                   | [] => []
                   | x :: rest => stringify_in x :: elems rest
                   end) items) ++ "]"
  | VObj props =>
      "{" ++ String.concat ","
               ((fix members (l : list (string * value)) : list string :=
                   match l with
                   | [] => []
                   | (k, VUndefined) :: rest => members rest
                   | (k, x) :: rest =>
                       (quote k ++ ":" ++ stringify_in x) :: members rest
                   end) props) ++ "}"
  end.

(** [JSON.stringify(v)]: [undefined] for [undefined], and then the
    request has no body. *)
Definition JSON_stringify (v : value) : option string :=
  match v with
  | VUndefined => None
  | _ => Some (stringify_in v)
  end.

(** *** The [api] object *)

Definition get (endpoint : value) : async value :=
  response <- fetch {| url := API_BASE ++ to_string endpoint;
                       meth := GET; headers := []; body := None |} ;;
  if negb (ok response) then throw (Error "API Error")
  else response_json response.

Definition post (endpoint : value) (data : value) : async value :=
  response <- fetch {| url := API_BASE ++ to_string endpoint;
                       meth := POST;
                       headers := [("Content-Type", "application/json")];
                       body := JSON_stringify data |} ;;
  if negb (ok response) then throw (Error "API Error")
  else response_json response.

Definition getDashboardStats : async value :=
  get (VStr "/dashboard/stats").

(** [(limit = 50) => ...]: the default applies to [undefined] only. *)
Definition getActivities (limit : value) : async value :=
  let limit := match limit with VUndefined => VNum (Int 50) | _ => limit end in
  get (VStr ("/activities?limit=" ++ to_string limit)).

Definition getAgentStatuses : async value :=
  get (VStr "/agents/status").

Definition getAnalytics : async value :=
  get (VStr "/analytics/overview").

Definition processItem (id : value) : async value :=
  post (VStr ("/chase-items/" ++ to_string id ++ "/process")) (VObj []).

(** *** The request each call sends, and how its answer settles *)

Definition get_request (endpoint : value) : request :=
  {| url := API_BASE ++ to_string endpoint; meth := GET;
     headers := []; body := None |}.

Definition post_request (endpoint data : value) : request :=
  {| url := API_BASE ++ to_string endpoint; meth := POST;
     headers := [("Content-Type", "application/json")];
     body := JSON_stringify data |}.

(** How a request that got the answer [a] settles. *)
Definition settle (a : option response) : outcome value :=
  match a with
  | None => Rejected TypeError
  | Some resp =>
      if ok resp then
        match json resp with
        | Some v => Resolved v
        | None => Rejected SyntaxError
        end
      else Rejected (Error "API Error")
  end.

End Api.

(* ================================================================== *)
(** ** components/AgentMonitor.jsx: loading, and one card per agent *)
(* ================================================================== *)

Module AgentMonitor.
Import Js Api.

(** [s.replace(from, to)] with single characters: the first occurrence
    only. *)
Fixpoint replace_first (from to : ascii) (s : string) : string :=
  match s with
  | EmptyString => ""
  | String c rest =>
      if Ascii.eqb c from then String to rest
      else String c (replace_first from to rest)
  end.

(** Upper-casing of one ASCII letter; the other bytes below 128 have no
    case. *)
Definition upper_char (c : ascii) : ascii :=
  let n := N_of_ascii c in
  if ((97 <=? n) && (n <=? 122))%N then ascii_of_N (n - 32) else c.

Fixpoint upper_ascii (s : string) : string :=
  match s with
  | EmptyString => ""
  | String c rest => String (upper_char c) (upper_ascii rest)
  end.

(** A string made of ASCII characters only. *)
Fixpoint ascii_only (s : string) : bool :=
  match s with
  | EmptyString => true
  | String c rest => (N_of_ascii c <? 128)%N && ascii_only rest
  end.

(** What React accepts as a child: text, numbers, the values that render
    nothing, and arrays of such; a plain object is refused with the Error
    "Objects are not valid as a React child". *)
Fixpoint renderable (v : value) : bool :=
  match v with
  | VObj _ => false
  | VArr items =>
      (fix each (l : list value) : bool :=
         match l with
         | [] => true
         | x :: rest => renderable x && each rest
         end) items
  | _ => true
  end.

(** The component's state: [agents] and [activities], both [[]] at
    first. *)
Record state : Type := {
  agents : value;
  activities : value
}.

Definition initial : state := {| agents := VArr []; activities := VArr [] |}.

(** [loadData]: both queries one after the other, then both setters; an
    error of either query is caught and logged, and the state stays. *)
Definition loadData (st : state) : async state :=
  catch
    (statuses <- getAgentStatuses ;;
     acts <- getActivities (VNum (Int 50)) ;;
     ret {| agents := statuses; activities := acts |})
    (fun _ => ret st).

(** What one agent card hands to React.  The texts are kept as the
    values the JSX embeds. *)
Record card : Type := {
  key : value;
  background : string;
  title : string;
  badgeClass : string;
  badgeText : value;          (* {agent.status} *)
  lastAction : value;         (* Last Action: {...} *)
  itemsProcessed : value;     (* Items Processed: {...} *)
  lastActionTime : value + string  (* {agent.last_action_time && <div>...</div>} *)
}.

Section WithHost.
Variable date_parse : string -> num.
Variable now : Z.
(** [String.prototype.toUpperCase] of the host on a string that has
    characters outside ASCII: the Unicode case mapping, which can also
    change the length. *)
Variable unicode_toUpperCase : string -> string.

Definition toUpperCase (s : string) : string :=
  if ascii_only s then upper_ascii s else unicode_toUpperCase s.

(** The body of [agents.map(agent => ...)].  Reading a property of
    [null] or [undefined], or calling [replace] on what is not a
    string, throws a TypeError. *)
Definition agentCard (agent : value) : outcome card :=
  match agent with
  | VUndefined | VNull => Rejected TypeError
  | _ =>
      match prop agent "agent_type" with
      | VStr agent_type =>
          let active := strict_eq_str (prop agent "status") "active" in
          Resolved {|
            key := prop agent "agent_id";
            background := if active then "#f0fdf4" else "white";
            title := toUpperCase (replace_first "_" " " agent_type);
            badgeClass :=
              "badge " ++ (if active then "badge-received" else "badge-pending");
            badgeText := prop agent "status";
            lastAction := or (prop agent "last_action") (VStr "None");
            itemsProcessed := prop agent "items_processed";
            lastActionTime :=
              if truthy (prop agent "last_action_time")
              then inr (Formatters.formatRelativeTime date_parse now
                          (prop agent "last_action_time"))
              else inl (prop agent "last_action_time")
          |}
      | _ => Rejected TypeError
      end
  end.

Fixpoint cards (items : list value) : outcome (list card) :=
  match items with
  | [] => Resolved []
  | a :: rest =>
      match agentCard a with
      | Rejected e => Rejected e
      | Resolved c =>
          match cards rest with
          | Rejected e => Rejected e
          | Resolved cs => Resolved (c :: cs)
          end
      end
  end.

(** The values a card embeds as children, in the order of the JSX. *)
Definition children (c : card) : list value :=
  [badgeText c; lastAction c; itemsProcessed c;
   match lastActionTime c with
   | inl falsy => falsy
   | inr text => VStr text
   end].

(** How rendering the "Active Agents" grid ends. *)
Inductive grid : Type :=
| Shown (cs : list card)
| MapTypeError      (* thrown while [agents.map] builds the cards *)
| ObjectAsChild.    (* thrown by React when it mounts the children *)

(** The "Active Agents" grid: [agents.map] exists on arrays only and runs
    over the whole list first; React then mounts the cards and refuses a
    plain object among their children. *)
Definition activeAgents (st : state) : grid :=
  match agents st with
  | VArr items =>
      match cards items with
      | Rejected _ => MapTypeError
      | Resolved cs =>
          if forallb (fun c => forallb renderable (children c)) cs then Shown cs
          else ObjectAsChild
      end
  | _ => MapTypeError
  end.
End WithHost.

(** Two status records for worked examples: the first without a time of
    its last action, the second with one and with a second underscore in
    its type. *)
Definition active_agent : value :=
  VObj [("agent_id", VNum (Int 1));
        ("agent_type", VStr "document_chaser");
        ("status", VStr "active");
        ("last_action", VStr "Sent reminder");
        ("items_processed", VNum (Int 12))].

Definition idle_agent : value :=
  VObj [("agent_id", VNum (Int 2));
        ("agent_type", VStr "loa_chaser_v2");
        ("status", VStr "idle");
        ("last_action", VNull);
        ("items_processed", VNum (Int 0));
        ("last_action_time", VStr "2025-03-01T10:00:00")].

End AgentMonitor.

(* ================================================================== *)
(** ** The Chase Orchestration Engine *)
(* ================================================================== *)

(** The engine runs in the backend, behind the REST API that [Api] calls;
    none of its code is among the sources embedded above.  Everything in
    this module is therefore written from the design document, section
    by section, and the definitions say which sentence they follow. *)

Module Engine.

(** *** Data model (design document, section 3) *)

Inductive Status : Type :=
| Created | Pending | Sent | AwaitingResponse | Overdue | Escalated
| Received | Completed | Failed.

Inductive ItemType : Type := Document | LOA.
Inductive Priority : Type := PLow | PMedium | PHigh.
Inductive Risk : Type := Low | Medium | High.
Inductive Channel : Type := Email | SMS | Phone.
Inductive Tone : Type := Friendly | Gentle | Urgent.

Inductive FailReason : Type :=
| InvalidTarget
| MissingRequiredField
| PermanentChannel
| AttemptCapReached.

(** What the channel sender answers. *)
Inductive ChannelOutcome : Type :=
| Success
| TransientChannelError
| PermanentChannelError.

(** What an agent decides; the template is a name. *)
Inductive Action : Type :=
| Send (channel : Channel) (tone : Tone) (template : string)
| Escalate (channel : Channel) (tone : Tone) (template : string)
| MarkFailed (reason : FailReason).

Inductive ActionKind : Type :=
| DidSend | DidEscalate | DidMarkFailed | DidTransition (target : Status).

Inductive ActivityOutcome : Type :=
| Succeeded
| FailedWith (reason : FailReason)
| TransientError.

Record Activity : Type := {
  act_item : Z;
  act_agent : ItemType;
  act_action : ActionKind;
  act_channel : option Channel;
  act_tone : option Tone;
  act_outcome : ActivityOutcome;
  act_time : Q
}.

Record ProviderProfile : Type := {
  providerId : Z;
  meanLatency : Q;
  percentileLatency : Q;
  failureRate : Q;
  expectedResponseTime : Q;
  sampleCount : Z;
  lastUpdated : Q
}.

Record ChaseItem : Type := {
  id : Z;
  type : ItemType;
  status : Status;
  priority : Priority;
  attempts : Z;
  createdAt : Q;
  lastActionAt : option Q;
  nextActionAt : option Q;
  riskScore : Q;
  providerRef : option Z;
  history : list Activity
}.

Record Config : Type := {
  escalationThreshold : Z;
  hardCap : Z;
  overdueMultiplier : Q;
  defaultProfile : ProviderProfile;
  baseDelay : Q;
  growthFactor : Q;
  capAttempts : Z;
  minDelay : Q;
  maxDelay : Q
}.

Record PolicyOutput : Type := {
  delay : Q;
  tone : Tone;
  channel : Channel
}.

(** Modelled from the spec: the terminal states of the item state machine,
    which is backend code.  "Received and Completed and Failed are
    terminal". *)
Definition terminal (s : Status) : bool :=
  match s with
  | Received | Completed | Failed => true
  | _ => false
  end.

(** Modelled from the spec: "increments priority if below High". *)
Definition raise (p : Priority) : Priority :=
  match p with
  | PLow => PMedium
  | PMedium | PHigh => PHigh
  end.

Definition Qltb (a b : Q) : bool := negb (Qle_bool b a).

(** *** Escalation and retry policy (section 4.3) *)

Fixpoint qpow (g : Q) (n : nat) : Q :=
  match n with
  | O => 1
  | S k => g * qpow g k
  end.

Definition clamp (lo hi x : Q) : Q :=
  if Qle_bool x lo then lo else if Qle_bool hi x then hi else x.

(** Modelled from the spec: the backoff of the Escalation Policy, which
    is backend code.  "delay = baseDelay * growthFactor^min(attempts,
    capAttempts), clamped to [minDelay, maxDelay]". *)
Definition backoff (cfg : Config) (n : Z) : Q :=
  clamp (minDelay cfg) (maxDelay cfg)
    (baseDelay cfg * qpow (growthFactor cfg) (Z.to_nat (Z.min n (capAttempts cfg)))).

(** Modelled from the spec: "plus bounded random jitter (e.g., +-10%)".
    [r] is the draw of the seedable random source; it is cut to [-1, 1],
    which is what bounds the jitter to a tenth of the delay. *)
Definition jittered (d r : Q) : Q := d + d * clamp (-1) 1 r / 10.

(** Modelled from the spec: the tone ladder.  "attempts 0-1 -> Friendly;
    2 -> Gentle; >= 3 or Overdue/Escalated status -> Urgent". *)
Definition toneFor (st : Status) (n : Z) : Tone :=
  match st with
  | Overdue | Escalated => Urgent
  | _ => if n <=? 1 then Friendly else if n =? 2 then Gentle else Urgent
  end.

(** Modelled from the spec: the channel ladder.  "Friendly/Gentle ->
    Email; escalation to SMS occurs when tone reaches Urgent or risk
    classification is High; escalation to Phone occurs when attempts >=
    escalationThreshold or item is in Escalated state". *)
Definition channelFor (cfg : Config) (st : Status) (n : Z) (t : Tone) (risk : Risk) : Channel :=
  let phone := match st with Escalated => true | _ => escalationThreshold cfg <=? n end in
  if phone then Phone
  else match t, risk with
       | Urgent, _ | _, High => SMS
       | _, _ => Email
       end.

(** Modelled from the spec: the Escalation Policy as a whole, a pure
    function to "(delay, tone, channel)"; it reads the attempts and the
    status of the item, the risk classification and the jitter draw. *)
Definition policy (cfg : Config) (it : ChaseItem) (risk : Risk) (r : Q) : PolicyOutput :=
  let t := toneFor (status it) (attempts it) in
  {| delay := jittered (backoff cfg (attempts it)) r;
     tone := t;
     channel := channelFor cfg (status it) (attempts it) t risk |}.

(** *** Predictor (section 4.4) *)

(** Modelled from the spec: the classification bands of the Predictor.
    "Low [0, 0.33), Medium [0.33, 0.66), High [0.66, 1.0]". *)
Definition classify (score : Q) : Risk :=
  if Qltb score (33 # 100) then Low
  else if Qltb score (66 # 100) then Medium
  else High.

Section Predictor.
(** The scoring function is pluggable: the design gives its inputs
    (elapsed time against the provider's latency, attempts against the
    escalation threshold, the provider's failure rate), not its formula.
    Nothing is established here about the range of the score. *)
Variable score : Config -> ChaseItem -> ProviderProfile -> Q -> Q.

(** Modelled from the spec: the Predictor, which is backend code.  "When
    no provider profile exists, the Predictor uses a conservative
    default distribution rather than failing". *)
Definition predict (cfg : Config) (it : ChaseItem)
    (profile : option ProviderProfile) (now : Q) : Q * Risk :=
  let p := match profile with
           | Some p => p
           | None => defaultProfile cfg
           end in
  let s := score cfg it p now in
  (s, classify s).
End Predictor.

(** *** State machine and orchestrator step (sections 4.1 and 4.2) *)

(** What a step hands back: the item as committed, the Activity it
    appended (at most one), and whether the step was logged as a
    conflict.  There is no error case: a failure is a state of the item
    and an outcome of its Activity. *)
Record Result : Type := {
  item : ChaseItem;
  activity : option Activity;
  conflict : bool
}.

Definition with_status (it : ChaseItem) (s : Status) : ChaseItem :=
  {| id := id it; type := type it; status := s; priority := priority it;
     attempts := attempts it; createdAt := createdAt it;
     lastActionAt := lastActionAt it; nextActionAt := nextActionAt it;
     riskScore := riskScore it; providerRef := providerRef it;
     history := history it |}.

Definition with_priority (it : ChaseItem) (p : Priority) : ChaseItem :=
  {| id := id it; type := type it; status := status it; priority := p;
     attempts := attempts it; createdAt := createdAt it;
     lastActionAt := lastActionAt it; nextActionAt := nextActionAt it;
     riskScore := riskScore it; providerRef := providerRef it;
     history := history it |}.

Definition with_risk (it : ChaseItem) (r : Q) : ChaseItem :=
  {| id := id it; type := type it; status := status it; priority := priority it;
     attempts := attempts it; createdAt := createdAt it;
     lastActionAt := lastActionAt it; nextActionAt := nextActionAt it;
     riskScore := r; providerRef := providerRef it;
     history := history it |}.

(** One more attempt at [now], the next action due after [d]. *)
Definition with_attempt (it : ChaseItem) (now d : Q) : ChaseItem :=
  {| id := id it; type := type it; status := status it; priority := priority it;
     attempts := attempts it + 1; createdAt := createdAt it;
     lastActionAt := Some now; nextActionAt := Some (now + d)%Q;
     riskScore := riskScore it; providerRef := providerRef it;
     history := history it |}.

Definition append (it : ChaseItem) (a : Activity) : ChaseItem :=
  {| id := id it; type := type it; status := status it; priority := priority it;
     attempts := attempts it; createdAt := createdAt it;
     lastActionAt := lastActionAt it; nextActionAt := nextActionAt it;
     riskScore := riskScore it; providerRef := providerRef it;
     history := (history it ++ [a])%list |}.

(** A transition and its Activity are committed together. *)
Definition commit (it : ChaseItem) (a : Activity) : Result :=
  {| item := append it a; activity := Some a; conflict := false |}.

Definition unchanged (it : ChaseItem) : Result :=
  {| item := it; activity := None; conflict := false |}.

(** Modelled from the spec: "any attempted transition out of a terminal
    state is a no-op and is logged as a conflict, never an error surfaced
    to the caller". *)
Definition skipped (it : ChaseItem) : Result :=
  {| item := it; activity := None; conflict := true |}.

Definition record (it : ChaseItem) (now : Q) (k : ActionKind)
    (c : option Channel) (t : option Tone) (o : ActivityOutcome) : Activity :=
  {| act_item := id it; act_agent := type it; act_action := k;
     act_channel := c; act_tone := t; act_outcome := o; act_time := now |}.

(** Modelled from the spec: a status change that sends nothing (the
    automatic edges of section 4.1), committed with its Activity. *)
Definition transition (it : ChaseItem) (now : Q) (s : Status) : Result :=
  commit (with_status it s) (record it now (DidTransition s) None None Succeeded).

(** Modelled from the spec: "Any non-terminal state -> Failed", with the
    reason in the Activity. *)
Definition fail (it : ChaseItem) (now : Q) (c : option Channel) (t : option Tone)
    (reason : FailReason) : Result :=
  commit (with_status it Failed) (record it now DidMarkFailed c t (FailedWith reason)).

(** Modelled from the spec: "a ChaseItem is created in state Created",
    with no attempt made and no timestamp of an action set. *)
Definition create (i : Z) (ty : ItemType) (p : Priority) (provider : option Z)
    (now : Q) : ChaseItem :=
  {| id := i; type := ty; status := Created; priority := p; attempts := 0;
     createdAt := now; lastActionAt := None; nextActionAt := None;
     riskScore := 0; providerRef := provider; history := [] |}.

Section Orchestrator.
Variable cfg : Config.
(** The collaborators of a step: the pluggable scoring function, the
    Provider Profile Store, the agent matching the item's type
    ([decide(item, policyOutput)]), the channel sender behind the
    Dispatcher and the random source of the jitter. *)
Variable score : Config -> ChaseItem -> ProviderProfile -> Q -> Q.
Variable profileOf : Z -> option ProviderProfile.
Variable decide : ChaseItem -> PolicyOutput -> Action.
Variable send : Q -> ChaseItem -> Channel -> Tone -> string -> ChannelOutcome.
Variable draw : Q -> ChaseItem -> Q.

Definition profile (it : ChaseItem) : option ProviderProfile :=
  match providerRef it with
  | Some p => profileOf p
  | None => None
  end.

Definition expected (it : ChaseItem) : Q :=
  match profile it with
  | Some p => expectedResponseTime p
  | None => expectedResponseTime (defaultProfile cfg)
  end.

(** Modelled from the spec: "AwaitingResponse -> Overdue: triggered when
    now > lastActionAt + providerProfile.expectedResponseTime (or a
    default if no profile exists)". *)
Definition overdue (it : ChaseItem) (now : Q) : bool :=
  match lastActionAt it with
  | Some t => Qltb (t + expected it) now
  | None => false
  end.

(** Modelled from the spec: the escalation trigger.  "attempts >=
    escalationThreshold or elapsedSinceCreated >
    providerProfile.expectedResponseTime * overdueMultiplier". *)
Definition shouldEscalate (it : ChaseItem) (now : Q) : bool :=
  (escalationThreshold cfg <=? attempts it)
  || Qltb (expected it * overdueMultiplier cfg) (now - createdAt it).

(** Modelled from the spec: how the Orchestrator applies what the
    Dispatcher returns.  [Success] moves the item to [next] and counts
    the attempt; "TransientChannelError ... does not advance state,
    counted as a retry"; "PermanentChannelError ... maps to
    MarkFailed". *)
Definition applyOutcome (it : ChaseItem) (now : Q) (pol : PolicyOutput)
    (k : ActionKind) (c : Channel) (t : Tone) (next : Status)
    (o : ChannelOutcome) : Result :=
  if terminal (status it) then skipped it
  else
    match o with
    | Success =>
        commit (with_status (with_attempt it now (delay pol)) next)
               (record it now k (Some c) (Some t) Succeeded)
    | TransientChannelError =>
        commit (with_attempt it now (delay pol))
               (record it now k (Some c) (Some t) TransientError)
    | PermanentChannelError =>
        fail it now (Some c) (Some t) PermanentChannel
    end.

(** Modelled from the spec: one attempt on a leased item, "invoke
    Predictor -> invoke Escalation Policy -> invoke the Agent matching
    item.type -> apply the returned transition".  Before that, "Any
    non-terminal state -> Failed: ... when attempts exceeds an absolute
    hard cap": the comparison is the document's, [attempts > hardCap],
    so an item whose counter equals the cap is attempted once more. *)
Definition attempt (it : ChaseItem) (now : Q) (next : Status) : Result :=
  if hardCap cfg <? attempts it then fail it now None None AttemptCapReached
  else
    let pol := policy cfg it (snd (predict score cfg it (profile it) now))
                 (draw now it) in
    match decide it pol with
    | MarkFailed reason => fail it now None None reason
    | Send c t tpl =>
        applyOutcome it now pol DidSend c t next (send now it c t tpl)
    | Escalate c t tpl =>
        applyOutcome it now pol DidEscalate c t next (send now it c t tpl)
    end.

(** Modelled from the spec: the processing of one item, by a tick or by
    [triggerImmediateProcess]; it is the state machine of section 4.1.
    "Created -> Pending: immediately on registration"; "Pending -> Sent:
    orchestrator dispatches the first communication"; "Sent ->
    AwaitingResponse: automatic"; an Overdue item is escalated when the
    trigger fires and chased again otherwise; "Escalated ->
    AwaitingResponse: after the escalated communication is sent".  The
    risk score is "recomputed every tick that evaluates the item". *)
Definition process (it : ChaseItem) (now : Q) : Result :=
  if terminal (status it) then skipped it
  else
    let it := with_risk it (fst (predict score cfg it (profile it) now)) in
    match status it with
    | Created => transition it now Pending
    | Pending => attempt it now Sent
    | Sent => transition it now AwaitingResponse
    | AwaitingResponse =>
        if overdue it now then transition it now Overdue else unchanged it
    | Overdue =>
        if shouldEscalate it now
        then transition (with_priority it (raise (priority it))) now Escalated
        else attempt it now Overdue
    | Escalated => attempt it now AwaitingResponse
    | Received | Completed | Failed => skipped it
    end.

(** The states in which processing makes an attempt, so that the
    Dispatcher is asked to send. *)
Definition attempting (it : ChaseItem) (now : Q) : bool :=
  match status it with
  | Pending | Escalated => true
  | Overdue => negb (shouldEscalate it now)
  | _ => false
  end.

(** Modelled from the spec: "AwaitingResponse -> Received: triggered
    only by an external response event". *)
Definition receive (it : ChaseItem) (now : Q) : Result :=
  match status it with
  | AwaitingResponse => transition it now Received
  | _ => skipped it
  end.

(** Modelled from the spec: "an item may be externally marked
    Completed". *)
Definition complete (it : ChaseItem) (now : Q) : Result :=
  if terminal (status it) then skipped it
  else transition it now Completed.

(** The operations of an item's life after its creation. *)
Inductive Op : Type :=
| Process (now : Q)
| Respond (now : Q)
| MarkCompleted (now : Q).

Definition step (it : ChaseItem) (op : Op) : ChaseItem :=
  match op with
  | Process now => item (process it now)
  | Respond now => item (receive it now)
  | MarkCompleted now => item (complete it now)
  end.

Definition run (it : ChaseItem) (ops : list Op) : ChaseItem :=
  fold_left step ops it.
End Orchestrator.

(** *** Chase agents (section 4.5) *)

(** Modelled from the spec: what both agents do once the item is valid.
    [decide] answers one of Send, Escalate and MarkFailed; an item in the
    Escalated state gets the escalated communication. *)
Definition chase (it : ChaseItem) (pol : PolicyOutput) (template : string) : Action :=
  match status it with
  | Escalated => Escalate (channel pol) (tone pol) template
  | _ => Send (channel pol) (tone pol) template
  end.

(** Modelled from the spec: "Document chases validate client contact
    channel presence"; [hasContact] reads the Client store. *)
Definition documentChaser (hasContact : ChaseItem -> bool)
    (it : ChaseItem) (pol : PolicyOutput) : Action :=
  if hasContact it then chase it pol "document_request"
  else MarkFailed InvalidTarget.

(** Modelled from the spec: "LOA chases validate provider reference
    presence before sending". *)
Definition loaChaser (it : ChaseItem) (pol : PolicyOutput) : Action :=
  match providerRef it with
  | Some _ => chase it pol "loa_request"
  | None => MarkFailed InvalidTarget
  end.

Definition agentFor (hasContact : ChaseItem -> bool)
    (it : ChaseItem) (pol : PolicyOutput) : Action :=
  match type it with
  | Document => documentChaser hasContact it pol
  | LOA => loaChaser it pol
  end.

(** *** A configuration with the defaults of the design document *)

Definition fallbackProfile : ProviderProfile :=
  {| providerId := 0; meanLatency := 15; percentileLatency := 30;
     failureRate := 1 # 2; expectedResponseTime := 15;
     sampleCount := 0; lastUpdated := 0 |}.

(** Thresholds as the document gives them (3 attempts, cap 8, multiplier
    1.5); delays in days. *)
Definition defaults : Config :=
  {| escalationThreshold := 3; hardCap := 8; overdueMultiplier := 3 # 2;
     defaultProfile := fallbackProfile;
     baseDelay := 1; growthFactor := 2; capAttempts := 5;
     minDelay := 1; maxDelay := 14 |}.

(** A configuration whose factor is below 1: each retry comes sooner. *)
Definition shrinking : Config :=
  {| escalationThreshold := 3; hardCap := 8; overdueMultiplier := 3 # 2;
     defaultProfile := fallbackProfile;
     baseDelay := 8; growthFactor := 1 # 2; capAttempts := 5;
     minDelay := 0; maxDelay := 14 |}.

(** A scoring function for worked examples: elapsed time against twice
    the provider's mean latency, cut to [0, 1]. *)
Definition elapsedScore (cfg : Config) (it : ChaseItem) (p : ProviderProfile)
    (now : Q) : Q :=
  clamp 0 1 ((now - createdAt it) / (2 * meanLatency p)).

(** Collaborators for worked examples: every client reachable, an empty
    Provider Profile Store, no jitter, and senders that always answer
    the same. *)
Definition reachable : ChaseItem -> PolicyOutput -> Action :=
  agentFor (fun _ => true).
Definition noProfiles : Z -> option ProviderProfile := fun _ => None.
Definition noJitter : Q -> ChaseItem -> Q := fun _ _ => 0%Q.
Definition delivering : Q -> ChaseItem -> Channel -> Tone -> string -> ChannelOutcome :=
  fun _ _ _ _ _ => Success.
Definition flaky : Q -> ChaseItem -> Channel -> Tone -> string -> ChannelOutcome :=
  fun _ _ _ _ _ => TransientChannelError.
Definition rejecting : Q -> ChaseItem -> Channel -> Tone -> string -> ChannelOutcome :=
  fun _ _ _ _ _ => PermanentChannelError.

(** A step that ends in Failed with [reason] in its Activity. *)
Definition failed_with (it : ChaseItem) (r : Result) (reason : FailReason) : Prop :=
  status (item r) = Failed
  /\ attempts (item r) = attempts it
  /\ exists a, activity r = Some a
               /\ act_item a = id it
               /\ act_outcome a = FailedWith reason
               /\ history (item r) = (history it ++ [a])%list.

(** What a step may do to the counter: leave it, or add one while the
    cap has not been exceeded. *)
Definition counts (cap before after : Z) : Prop :=
  after = before \/ (after = before + 1 /\ before <= cap).

(** Comparison of two timestamps that are both set. *)
Definition before (a b : option Q) : Prop :=
  match a, b with
  | Some x, Some y => (x < y)%Q
  | _, _ => False
  end.

End Engine.

(* ================================================================== *)
(** ** utils/api.js: the chase-item query *)
(* ================================================================== *)

Module Query.
Import Js Api.

(** The bytes the application/x-www-form-urlencoded serializer leaves as
    they are: ASCII letters and digits, and [*], [-], [.], [_]. *)
Definition form_safe (c : ascii) : bool :=
  let n := N_of_ascii c in
  (((48 <=? n) && (n <=? 57)) || ((65 <=? n) && (n <=? 90))
   || ((97 <=? n) && (n <=? 122))
   || (n =? 42) || (n =? 45) || (n =? 46) || (n =? 95))%N.

Definition HEX (n : N) : ascii :=
  ascii_of_N (if (n <? 10)%N then 48 + n else 55 + n)%N.

(** One byte of a name or a value: kept, [+] for a space, or [%XX]. *)
Definition form_encode_char (c : ascii) : string :=
  let n := N_of_ascii c in
  if form_safe c then String c ""
  else if (n =? 32)%N then "+"
  else String "%" (String (HEX (n / 16)) (String (HEX (n mod 16)) "")).

Fixpoint form_encode (s : string) : string :=
  match s with
  | EmptyString => ""
  | String c rest => form_encode_char c ++ form_encode rest
  end.

(** [URLSearchParams.prototype.toString]: [name=value] joined by [&]. *)
Fixpoint serialize (pairs : list (string * string)) : string :=
  match pairs with
  | [] => ""
  | [(k, v)] => form_encode k ++ "=" ++ form_encode v
  | (k, v) :: rest => form_encode k ++ "=" ++ form_encode v ++ "&" ++ serialize rest
  end.

(** [new URLSearchParams(filters)] for an object: one pair per property,
    in order, the value turned into a string. *)
Definition URLSearchParams (filters : list (string * value)) : list (string * string) :=
  map (fun kv => (fst kv, to_string (snd kv))) filters.

(** [getChaseItems]; the pages call it with an object literal, and
    [(filters = {})] stands in when the argument is left out. *)
Definition getChaseItems (filters : option (list (string * value))) : async value :=
  let filters := match filters with Some f => f | None => [] end in
  get (VStr ("/chase-items?" ++ serialize (URLSearchParams filters))).

(** Every byte of [s] passes [p]. *)
Fixpoint all (p : ascii -> bool) (s : string) : bool :=
  match s with
  | EmptyString => true
  | String c rest => p c && all p rest
  end.

(** What a serialized query is made of: kept bytes, [+], [%], [=], [&]. *)
Definition query_char (c : ascii) : bool :=
  let n := N_of_ascii c in
  (form_safe c || (n =? 43) || (n =? 37) || (n =? 61) || (n =? 38))%N.

End Query.

(* ================================================================== *)
(** ** App.jsx: loading the header statistics *)
(* ================================================================== *)

Module App.
Import Js Api.

Record state : Type := {
  activeTab : string;
  stats : value;
  loading : bool
}.

Definition initial : state :=
  {| activeTab := "dashboard"; stats := VNull; loading := true |}.

(** [loadData]: the statistics are stored on success; [setLoading(false)]
    is called on both paths. *)
Definition loadData (st : state) : async state :=
  catch
    (dashboardStats <- getDashboardStats ;;
     ret {| activeTab := activeTab st; stats := dashboardStats; loading := false |})
    (fun _ => ret {| activeTab := activeTab st; stats := stats st; loading := false |}).

(** What the main area shows. *)
Inductive content : Type :=
| Spinner
| Page (tab : string)
| Blank.

Definition tabs : list string :=
  ["dashboard"; "agents"; "timeline"; "clients"; "analytics"].

Definition main (st : state) : content :=
  if loading st then Spinner
  else if existsb (String.eqb (activeTab st)) tabs then Page (activeTab st)
  else Blank.

End App.

(* ================================================================== *)
(** ** components/Dashboard.jsx *)
(* ================================================================== *)

Module Dashboard.
Import Js Api.

Record state : Type := {
  recentItems : value;
  recentActivities : value
}.

Definition initial : state :=
  {| recentItems := VArr []; recentActivities := VArr [] |}.

Definition loadData (st : state) : async state :=
  catch
    (items <- Query.getChaseItems (Some [("limit", VNum (Int 10))]) ;;
     activities <- getActivities (VNum (Int 10)) ;;
     ret {| recentItems := items; recentActivities := activities |})
    (fun _ => ret st).

(** [stats?.field || 0]: reading a property of [null] or [undefined]
    through [?.] gives [undefined]. *)
Definition statValue (stats : value) (field : string) : value :=
  or (prop stats field) (VNum (Int 0)).

End Dashboard.

(* ================================================================== *)
(** ** components/ChaseTimeline.jsx *)
(* ================================================================== *)

Module ChaseTimeline.
Import Js Api.

Record state : Type := {
  items : value;
  filter : string
}.

Definition initial : state := {| items := VArr []; filter := "all" |}.

Definition loadItems (st : state) : async state :=
  catch
    (data <- Query.getChaseItems
               (Some [("status",
                       VStr (if (filter st =? "all")%string then "" else filter st))]) ;;
     ret {| items := data; filter := filter st |})
    (fun _ => ret st).

End ChaseTimeline.

(* ================================================================== *)
(** ** components/ClientList.jsx and components/Analytics.jsx *)
(* ================================================================== *)

Module ClientList.
Import Js Api.

(** The state is [clients], at first [[]]. *)
Definition loadClients (clients : value) : async value :=
  catch (data <- get (VStr "/clients") ;; ret data) (fun _ => ret clients).

End ClientList.

Module Analytics.
Import Js Api.

(** The state is [analytics], at first [null]. *)
Definition loadAnalytics (analytics : value) : async value :=
  catch (data <- getAnalytics ;; ret data) (fun _ => ret analytics).

End Analytics.

(* ================================================================== *)
(** ** Shapes of the data the pages are given *)
(* ================================================================== *)

Module Shapes.
Import Js.

(** A status record the agent cards can title: its [agent_type] is a
    string. *)
Definition typed (agent : value) : bool :=
  match prop agent "agent_type" with
  | VStr _ => true
  | _ => false
  end.

(** A status record whose status, last action and processed count React
    can mount. *)
Definition displayable (agent : value) : bool :=
  AgentMonitor.renderable (prop agent "status")
  && AgentMonitor.renderable (prop agent "last_action")
  && AgentMonitor.renderable (prop agent "items_processed").

(** An ASCII lower-case letter. *)
Definition lower (c : ascii) : bool :=
  let n := N_of_ascii c in ((97 <=? n) && (n <=? 122))%N.

(** The byte is not [c]. *)
Definition other_than (c : ascii) (x : ascii) : bool := negb (Ascii.eqb x c).

End Shapes.

(* ================================================================== *)
(** * Properties of the dashboard utilities *)
(* ================================================================== *)

Section FormatterFacts.
Import Js Formatters.
Variable date_parse : string -> num.
Variable now : Z.
Variable toLocaleDateString : num -> string.

Lemma truthy_nonempty (s : string) : s <> "" -> truthy (VStr s) = true.
Proof.
  intros Hs. simpl. destruct (String.eqb_spec s ""); [contradiction | reflexivity].
Qed.

Lemma lt_Int (x y : Z) : lt (Int x) (Int y) = (x <? y).
Proof. reflexivity. Qed.

(** C9.  On a falsy argument ([null], [undefined] and the empty string
    are the ones the pages pass) both [formatDate] and
    [formatRelativeTime] give "N/A"; they are total, nothing is
    thrown. *)
Theorem formatters_falsy_NA (v : value) :
  truthy v = false ->
  formatDate date_parse toLocaleDateString v = "N/A"
  /\ formatRelativeTime date_parse now v = "N/A".
Proof.
  intros Hv. unfold formatDate, formatRelativeTime.
  rewrite Hv. split; reflexivity.
Qed.

(** C10.  On a non-empty date string, with d = now - date, the relative
    time is "Just now" when floor(d/60000) < 1, so for every future date
    too; "{m}m ago" when 1 <= m < 60; "{h}h ago" when m >= 60 and
    h < 24; and "{days}d ago" in every other case, which includes the
    string that is no date, where d is NaN and the text is "NaNd ago". *)
Theorem formatRelativeTime_bands (s : string) :
  s <> "" ->
  let r := formatRelativeTime date_parse now (VStr s) in
  match new_Date date_parse (VStr s) with
  | Int t =>
      let d := now - t in
      let m := d / 60000 in
      let h := d / 3600000 in
      let days := d / 86400000 in
      (m < 1 -> r = "Just now")
      /\ (d < 0 -> r = "Just now")
      /\ (1 <= m < 60 -> r = dec m ++ "m ago")
      /\ (60 <= m -> h < 24 -> r = dec h ++ "h ago")
      /\ (60 <= m -> 24 <= h -> r = dec days ++ "d ago")
  | NaN => r = "NaNd ago"
  end.
Proof.
  intros Hs r. subst r. unfold formatRelativeTime.
  rewrite (truthy_nonempty s Hs). cbn [negb].
  destruct (new_Date date_parse (VStr s)) as [|t]; [reflexivity|].
  cbn [sub floor_div num_to_string]. rewrite !lt_Int.
  cbv zeta.
  assert (Hneg : now - t < 0 -> (now - t) / 60000 < 1).
  { intros Hd. assert ((now - t) / 60000 < 0) by (apply Z.div_lt_upper_bound; lia). lia. }
  repeat split; intros.
  - destruct (Z.ltb_spec ((now - t) / 60000) 1); [reflexivity | lia].
  - destruct (Z.ltb_spec ((now - t) / 60000) 1); [reflexivity | lia].
  - destruct (Z.ltb_spec ((now - t) / 60000) 1); [lia|].
    destruct (Z.ltb_spec ((now - t) / 60000) 60); [reflexivity | lia].
  - destruct (Z.ltb_spec ((now - t) / 60000) 1); [lia|].
    destruct (Z.ltb_spec ((now - t) / 60000) 60); [lia|].
    destruct (Z.ltb_spec ((now - t) / 3600000) 24); [reflexivity | lia].
  - destruct (Z.ltb_spec ((now - t) / 60000) 1); [lia|].
    destruct (Z.ltb_spec ((now - t) / 60000) 60); [lia|].
    destruct (Z.ltb_spec ((now - t) / 3600000) 24); [lia | reflexivity].
Qed.
End FormatterFacts.

Lemma formatters_falsy_NA_witness :
  Forall (fun v =>
            Js.truthy v = false
            /\ Formatters.formatDate (fun _ => Js.NaN) (fun _ => "Invalid Date") v = "N/A"
            /\ Formatters.formatRelativeTime (fun _ => Js.NaN) 0 v = "N/A")
         [Js.VNull; Js.VUndefined; Js.VStr ""].
Proof.
  apply Forall_cons; [|apply Forall_cons; [|apply Forall_cons; [|apply Forall_nil]]];
    (split;
     [ reflexivity
     | apply (formatters_falsy_NA (fun _ => Js.NaN) 0 (fun _ => "Invalid Date"));
       reflexivity ]).
Defined.

Lemma formatRelativeTime_bands_witness :
  Formatters.formatRelativeTime (fun _ => Js.Int 1000) 7261000 (Js.VStr "2025-01-01")
  = "2h ago".
Proof.
  assert (Hs : "2025-01-01" <> "") by discriminate.
  pose proof (formatRelativeTime_bands (fun _ => Js.Int 1000) 7261000 "2025-01-01" Hs) as H.
  cbv zeta in H. cbn [Formatters.new_Date Formatters.time_clip] in H.
  change (Z.abs 1000 <=? 8640000000000000) with true in H. cbv iota in H.
  destruct H as (_ & _ & _ & H & _).
  apply H; vm_compute; [discriminate | reflexivity].
Defined.

Section ApiFacts.
Import Js Api.

Lemma get_run (endpoint : value) (net : network) (log : list request) :
  get endpoint net log
  = ((log ++ [get_request endpoint])%list, settle (net log (get_request endpoint))).
Proof.
  unfold get, bind, fetch, settle. fold (get_request endpoint).
  destruct (net log (get_request endpoint)) as [resp|]; [|reflexivity].
  destruct (ok resp); cbn [negb]; [|reflexivity].
  unfold response_json. destruct (json resp); reflexivity.
Qed.

Lemma post_run (endpoint data : value) (net : network) (log : list request) :
  post endpoint data net log
  = ((log ++ [post_request endpoint data])%list,
     settle (net log (post_request endpoint data))).
Proof.
  unfold post, bind, fetch, settle. fold (post_request endpoint data).
  destruct (net log (post_request endpoint data)) as [resp|]; [|reflexivity].
  destruct (ok resp); cbn [negb]; [|reflexivity].
  unfold response_json. destruct (json resp); reflexivity.
Qed.

Lemma settle_api_error (a : option response) :
  settle a = Rejected (Error "API Error")
  <-> exists resp, a = Some resp /\ ok resp = false.
Proof.
  unfold settle. split.
  - destruct a as [resp|]; [|discriminate].
    destruct (ok resp) eqn:Hok.
    + destruct (json resp); discriminate.
    + intros _. exists resp. split; [reflexivity | assumption].
  - intros (resp & -> & Hok). rewrite Hok. reflexivity.
Qed.

Lemma settle_ok (resp : response) :
  ok resp = true ->
  settle (Some resp)
  = match json resp with Some v => Resolved v | None => Rejected SyntaxError end.
Proof. intros Hok. unfold settle. rewrite Hok. reflexivity. Qed.

(** C7.  For every item id, [processItem] puts exactly one request on the
    wire: a POST to /chase-items/{id}/process (under the API base) whose
    body is the empty JSON object; when the answer is ok it resolves to
    the parsed JSON body. *)
Theorem processItem_one_post (id : value) (net : network) (log : list request) :
  let req := {| url := API_BASE ++ "/chase-items/" ++ to_string id ++ "/process";
                meth := POST;
                headers := [("Content-Type", "application/json")];
                body := Some "{}" |} in
  fst (processItem id net log) = (log ++ [req])%list
  /\ forall resp v,
       net log req = Some resp -> ok resp = true -> json resp = Some v ->
       snd (processItem id net log) = Resolved v.
Proof.
  intros req. unfold processItem. rewrite post_run.
  change (post_request (VStr ("/chase-items/" ++ to_string id ++ "/process")) (VObj []))
    with req.
  split; [reflexivity|].
  intros resp v Hnet Hok Hjson. cbn [snd].
  rewrite Hnet, (settle_ok resp Hok), Hjson. reflexivity.
Qed.

(** C8.  [api.get] and [api.post] reject with Error("API Error") exactly
    when the request got a response whose [ok] is false; on a response
    whose [ok] is true they give what [response.json()] gives, the
    parsed body. *)
Theorem api_error_iff_not_ok (endpoint data : value) (net : network)
    (log : list request) :
  (snd (get endpoint net log) = Rejected (Error "API Error")
   <-> exists resp, net log (get_request endpoint) = Some resp /\ ok resp = false)
  /\ (snd (post endpoint data net log) = Rejected (Error "API Error")
      <-> exists resp,
            net log (post_request endpoint data) = Some resp /\ ok resp = false)
  /\ (forall resp, net log (get_request endpoint) = Some resp -> ok resp = true ->
        get endpoint net log
        = response_json resp net (log ++ [get_request endpoint])%list
        /\ forall v, json resp = Some v -> snd (get endpoint net log) = Resolved v)
  /\ (forall resp, net log (post_request endpoint data) = Some resp -> ok resp = true ->
        post endpoint data net log
        = response_json resp net (log ++ [post_request endpoint data])%list
        /\ forall v, json resp = Some v ->
                     snd (post endpoint data net log) = Resolved v).
Proof.
  rewrite get_run, post_run. cbn [snd].
  split; [apply settle_api_error|].
  split; [apply settle_api_error|].
  split; intros resp Hnet Hok; rewrite Hnet, (settle_ok resp Hok);
    unfold response_json, ret, throw;
    (split; [destruct (json resp); reflexivity | intros v ->; reflexivity]).
Qed.
End ApiFacts.

Lemma processItem_one_post_witness :
  let net : Api.network :=
    fun _ _ => Some {| Api.ok := true; Api.json := Some (Js.VObj [("status", Js.VStr "processed")]) |} in
  Api.processItem (Js.VNum (Js.Int 7)) net []
  = ([{| Api.url := "http://localhost:8000/api/chase-items/7/process";
         Api.meth := Api.POST;
         Api.headers := [("Content-Type", "application/json")];
         Api.body := Some "{}" |}],
     Api.Resolved (Js.VObj [("status", Js.VStr "processed")])).
Proof.
  intros net.
  destruct (processItem_one_post (Js.VNum (Js.Int 7)) net []) as [Hlog Hres].
  specialize (Hres _ _ eq_refl eq_refl eq_refl).
  destruct (Api.processItem (Js.VNum (Js.Int 7)) net []) as [l o].
  cbn [fst snd] in Hlog, Hres. rewrite Hlog, Hres. reflexivity.
Defined.

Lemma api_error_iff_not_ok_witness :
  let net : Api.network :=
    fun _ _ => Some {| Api.ok := false; Api.json := None |} in
  snd (Api.get (Js.VStr "/agents/status") net []) = Api.Rejected (Api.Error "API Error")
  /\ snd (Api.post (Js.VStr "/chase-items/1/process") (Js.VObj []) net [])
     = Api.Rejected (Api.Error "API Error").
Proof.
  intros net.
  split.
  - apply (proj1 (api_error_iff_not_ok (Js.VStr "/agents/status") (Js.VObj []) net [])).
    eexists. split; reflexivity.
  - apply (proj1 (proj2 (api_error_iff_not_ok (Js.VStr "/chase-items/1/process")
                           (Js.VObj []) net []))).
    eexists. split; reflexivity.
Defined.

(* ================================================================== *)
(** * Properties of the chase engine *)
(* ================================================================== *)

Section StateMachineFacts.
Import Engine.
Variable cfg : Config.
Variable score : Config -> ChaseItem -> ProviderProfile -> Q -> Q.
Variable profileOf : Z -> option ProviderProfile.
Variable decide : ChaseItem -> PolicyOutput -> Action.
Variable send : Q -> ChaseItem -> Channel -> Tone -> string -> ChannelOutcome.
Variable draw : Q -> ChaseItem -> Q.

#[local] Abbreviation process := (Engine.process cfg score profileOf decide send draw).
#[local] Abbreviation attempt := (Engine.attempt cfg score profileOf decide send draw).
#[local] Abbreviation step := (Engine.step cfg score profileOf decide send draw).
#[local] Abbreviation run := (Engine.run cfg score profileOf decide send draw).

(** **** Terminal states *)

Lemma process_terminal (it : ChaseItem) (now : Q) :
  terminal (status it) = true -> process it now = skipped it.
Proof. intros Ht. unfold Engine.process. rewrite Ht. reflexivity. Qed.

Lemma step_terminal (it : ChaseItem) (op : Op) :
  terminal (status it) = true -> step it op = it.
Proof.
  intros Ht. destruct op as [now | now | now]; cbn [Engine.step].
  - rewrite (process_terminal it now Ht). reflexivity.
  - unfold receive. destruct (status it); try discriminate Ht; reflexivity.
  - unfold complete. rewrite Ht. reflexivity.
Qed.

Lemma run_terminal (it : ChaseItem) (ops : list Op) :
  terminal (status it) = true -> run it ops = it.
Proof.
  intros Ht. induction ops as [|op ops IH]; [reflexivity|].
  cbn [Engine.run fold_left]. rewrite (step_terminal it op Ht). exact IH.
Qed.

(** C1.  Processing an item whose state is terminal (Received, Completed
    or Failed) is a no-op: the item comes back as it was, state and
    history included, no Activity is appended, and the step is logged as
    a conflict, not raised as an error; this holds however often the
    item is processed. *)
Theorem process_terminal_noop (it : ChaseItem) (now : Q) :
  terminal (status it) = true ->
  item (process it now) = it
  /\ status (item (process it now)) = status it
  /\ history (item (process it now)) = history it
  /\ activity (process it now) = None
  /\ conflict (process it now) = true
  /\ forall times : list Q, run it (map Process times) = it.
Proof.
  intros Ht. rewrite (process_terminal it now Ht). cbn [skipped item activity conflict].
  repeat split. intros times. apply run_terminal. exact Ht.
Qed.

(** **** The attempts counter *)

Lemma commit_attempts (it : ChaseItem) (a : Activity) :
  attempts (item (commit it a)) = attempts it.
Proof. reflexivity. Qed.

Lemma transition_attempts (it : ChaseItem) (now : Q) (s : Status) :
  attempts (item (transition it now s)) = attempts it.
Proof. reflexivity. Qed.

Lemma fail_attempts (it : ChaseItem) (now : Q) c t (r : FailReason) :
  attempts (item (fail it now c t r)) = attempts it.
Proof. reflexivity. Qed.

Lemma applyOutcome_attempts it now pol k c t next o :
  attempts (item (applyOutcome it now pol k c t next o)) = attempts it
  \/ attempts (item (applyOutcome it now pol k c t next o)) = attempts it + 1.
Proof.
  unfold applyOutcome. destruct (terminal (status it)); [left; reflexivity|].
  destruct o; [right | right | left]; reflexivity.
Qed.

Lemma attempt_counts (it : ChaseItem) (now : Q) (next : Status) :
  counts (hardCap cfg) (attempts it) (attempts (item (attempt it now next))).
Proof.
  unfold Engine.attempt, counts.
  destruct (Z.ltb_spec (hardCap cfg) (attempts it)) as [Hcap | Hcap];
    [left; reflexivity|].
  destruct (decide it _) as [c t tpl | c t tpl | reason]; [| |left; reflexivity];
    match goal with
    | |- context [applyOutcome ?i ?n ?p ?k ?c ?t ?x ?o] =>
        destruct (applyOutcome_attempts i n p k c t x o) as [-> | ->]
    end; auto.
Qed.

Lemma process_counts (it : ChaseItem) (now : Q) :
  counts (hardCap cfg) (attempts it) (attempts (item (process it now))).
Proof.
  unfold Engine.process.
  destruct (terminal (status it)); [left; reflexivity|].
  set (it' := with_risk it _).
  change (attempts it) with (attempts it').
  change (status it') with (status it).
  destruct (status it); try (left; reflexivity); try apply attempt_counts.
  - destruct (overdue _ _ _ _); left; reflexivity.
  - destruct (shouldEscalate _ _ _ _); [left; reflexivity | apply attempt_counts].
Qed.

Lemma step_counts (it : ChaseItem) (op : Op) :
  counts (hardCap cfg) (attempts it) (attempts (step it op)).
Proof.
  destruct op as [now | now | now]; cbn [Engine.step].
  - apply process_counts.
  - left. unfold receive. destruct (status it); reflexivity.
  - left. unfold complete. destruct (terminal (status it)); reflexivity.
Qed.

Lemma run_app (it : ChaseItem) (ops more : list Op) :
  run it (ops ++ more) = run (run it ops) more.
Proof. unfold Engine.run. apply fold_left_app. Qed.

Lemma run_monotone (ops : list Op) :
  forall it, attempts it <= attempts (run it ops).
Proof.
  induction ops as [|op ops IH]; intros it; [cbn; lia|].
  cbn [Engine.run fold_left]. specialize (IH (step it op)).
  unfold Engine.run in IH.
  destruct (step_counts it op) as [H | [H _]]; lia.
Qed.

Lemma run_bounded (ops : list Op) :
  forall it, 0 <= attempts it <= hardCap cfg + 1 ->
             0 <= attempts (run it ops) <= hardCap cfg + 1.
Proof.
  induction ops as [|op ops IH]; intros it Hit; [exact Hit|].
  cbn [Engine.run fold_left]. apply IH.
  destruct (step_counts it op) as [H | [H Hlt]]; lia.
Qed.

Lemma attempt_over_cap (it : ChaseItem) (now : Q) (next : Status) :
  hardCap cfg < attempts it ->
  attempt it now next = fail it now None None AttemptCapReached.
Proof.
  intros Hover. unfold Engine.attempt.
  destruct (Z.ltb_spec (hardCap cfg) (attempts it)); [reflexivity | lia].
Qed.

End StateMachineFacts.

Section Scenarios.
Import Engine.

(** Scenario 1 of the design document: a Document item of High priority,
    no attempt yet; once registered, one tick sends the first message. *)
Example scenario_first_tick :
  let it := run defaults elapsedScore noProfiles reachable delivering noJitter
              (create 1 Document PHigh None 0%Q) [Process 0%Q; Process 1%Q] in
  status it = Sent /\ attempts it = 1
  /\ map (fun a => (act_action a, act_channel a, act_tone a)) (history it)
     = [(DidTransition Pending, None, None); (DidSend, Some Email, Some Friendly)].
Proof. vm_compute. repeat split. Qed.

(** Scenario 2: no response; after three attempts the overdue item is
    escalated, and the escalated message goes out by phone, urgent. *)
Example scenario_escalation :
  let ticks := map Process [0; 1; 2; 20; 21; 22; 23]%Q in
  let it := run defaults elapsedScore noProfiles reachable delivering noJitter
              (create 1 Document PHigh None 0%Q) ticks in
  let r := process defaults elapsedScore noProfiles reachable delivering noJitter
             it 24%Q in
  status it = Escalated /\ attempts it = 3
  /\ option_map (fun a => (act_action a, act_channel a, act_tone a)) (activity r)
     = Some (DidEscalate, Some Phone, Some Urgent)
  /\ status (item r) = AwaitingResponse /\ attempts (item r) = 4.
Proof. vm_compute. repeat split. Qed.
End Scenarios.

Section StateMachineWitnesses.
Import Engine.

Lemma process_terminal_noop_witness :
  let it := with_status (create 7 LOA PMedium (Some 3) 0%Q) Received in
  terminal (status it) = true
  /\ item (process defaults elapsedScore noProfiles reachable flaky noJitter it 5%Q) = it
  /\ activity (process defaults elapsedScore noProfiles reachable flaky noJitter it 5%Q) = None.
Proof.
  intros it. split; [reflexivity|].
  destruct (process_terminal_noop defaults elapsedScore noProfiles reachable flaky noJitter
              it 5%Q eq_refl) as (Hitem & _ & _ & Hact & _).
  split; assumption.
Defined.


End StateMachineWitnesses.

Section DispatcherFacts.
Import Engine.
Variable cfg : Config.
Variable score : Config -> ChaseItem -> ProviderProfile -> Q -> Q.
Variable profileOf : Z -> option ProviderProfile.
Variable decide : ChaseItem -> PolicyOutput -> Action.
Variable send : Q -> ChaseItem -> Channel -> Tone -> string -> ChannelOutcome.
Variable draw : Q -> ChaseItem -> Q.

#[local] Abbreviation process := (Engine.process cfg score profileOf decide send draw).
#[local] Abbreviation attempt := (Engine.attempt cfg score profileOf decide send draw).

Lemma fail_failed_with it now c t reason :
  failed_with it (fail it now c t reason) reason.
Proof.
  unfold failed_with, fail, commit. cbn.
  repeat split. eexists. repeat split.
Qed.

Lemma applyOutcome_permanent it now pol k c t next :
  terminal (status it) = false ->
  failed_with it (applyOutcome it now pol k c t next PermanentChannelError)
    PermanentChannel.
Proof.
  intros Ht. unfold applyOutcome. rewrite Ht. apply fail_failed_with.
Qed.

Lemma attempt_fails_when_rejected it now next :
  terminal (status it) = false ->
  (forall c t tpl, send now it c t tpl = PermanentChannelError) ->
  exists reason, failed_with it (attempt it now next) reason.
Proof.
  intros Ht Hsend. unfold Engine.attempt.
  destruct (hardCap cfg <? attempts it); [eexists; apply fail_failed_with|].
  destruct (decide it _) as [c t tpl | c t tpl | reason].
  - rewrite Hsend. eexists. apply applyOutcome_permanent, Ht.
  - rewrite Hsend. eexists. apply applyOutcome_permanent, Ht.
  - eexists. apply fail_failed_with.
Qed.

End DispatcherFacts.


Section PolicyFacts.
Import Engine.
Local Open Scope Q_scope.

Lemma Qle_bool_false (x y : Q) : Qle_bool x y = false -> y < x.
Proof.
  intros H. apply Qnot_le_lt. intros Hle.
  apply Qle_bool_iff in Hle. congruence.
Qed.

Lemma clamp_bounds (lo hi x : Q) : lo <= hi -> lo <= clamp lo hi x <= hi.
Proof.
  intros Hlh. unfold clamp.
  destruct (Qle_bool x lo) eqn:E1; [lra|].
  apply Qle_bool_false in E1.
  destruct (Qle_bool hi x) eqn:E2; [lra|].
  apply Qle_bool_false in E2. lra.
Qed.

Lemma clamp_monotone (lo hi x y : Q) :
  lo <= hi -> x <= y -> clamp lo hi x <= clamp lo hi y.
Proof.
  intros Hlh Hxy. unfold clamp.
  destruct (Qle_bool x lo) eqn:X1; destruct (Qle_bool y lo) eqn:Y1;
    destruct (Qle_bool hi x) eqn:X2; destruct (Qle_bool hi y) eqn:Y2;
    repeat match goal with
           | H : Qle_bool _ _ = true |- _ => apply Qle_bool_iff in H
           | H : Qle_bool _ _ = false |- _ => apply Qle_bool_false in H
           end; lra.
Qed.

Lemma qpow_ge_1 (g : Q) (n : nat) : 1 <= g -> 1 <= qpow g n.
Proof.
  intros Hg. induction n as [|n IH]; cbn [qpow]; [lra|]. nra.
Qed.

Lemma qpow_step (g : Q) (n : nat) : 1 <= g -> qpow g n <= qpow g (S n).
Proof.
  intros Hg. pose proof (qpow_ge_1 g n Hg). cbn [qpow]. nra.
Qed.

Lemma qpow_monotone (g : Q) (n m : nat) :
  1 <= g -> (n <= m)%nat -> qpow g n <= qpow g m.
Proof.
  intros Hg Hnm. induction Hnm as [|m _ IH]; [lra|].
  pose proof (qpow_step g m Hg). lra.
Qed.

Lemma backoff_le (cfg : Config) (a b : Z) :
  0 <= baseDelay cfg -> 1 <= growthFactor cfg -> minDelay cfg <= maxDelay cfg ->
  (a <= b)%Z -> backoff cfg a <= backoff cfg b.
Proof.
  intros Hb Hg Hm Hab. unfold backoff.
  apply clamp_monotone; [exact Hm|].
  assert (Hn : (Z.to_nat (Z.min a (capAttempts cfg))
                <= Z.to_nat (Z.min b (capAttempts cfg)))%nat) by lia.
  pose proof (qpow_monotone (growthFactor cfg) _ _ Hg Hn).
  pose proof (qpow_ge_1 (growthFactor cfg) (Z.to_nat (Z.min a (capAttempts cfg))) Hg).
  nra.
Qed.

Lemma jittered_bounds (d r : Q) :
  0 <= d -> d - d / 10 <= jittered d r <= d + d / 10.
Proof.
  intros Hd. unfold jittered.
  assert (Hr : -1 <= clamp (-1) 1 r <= 1) by (apply clamp_bounds; lra).
  set (c := clamp (-1) 1 r) in *.
  assert (E : d * c / 10 == (d / 10) * c) by field.
  rewrite E.
  assert (0 <= d / 10) by (apply Qle_shift_div_l; lra).
  nra.
Qed.

Lemma jittered_zero (d : Q) : jittered d 0 == d.
Proof.
  unfold jittered. change (clamp (-1) 1 0) with 0. field.
Qed.

Lemma qpow_Qpower (g : Q) (n : nat) : qpow g n == g ^ Z.of_nat n.
Proof.
  induction n as [|n IH]; [reflexivity|].
  cbn [qpow]. rewrite IH, Nat2Z.inj_succ.
  replace (Z.succ (Z.of_nat n)) with (1 + Z.of_nat n)%Z by lia.
  rewrite Qpower_plus' by lia. reflexivity.
Qed.

Lemma qpow_strict (g : Q) (n m : nat) :
  1 < g -> (n < m)%nat -> qpow g n < qpow g m.
Proof.
  intros Hg Hnm.
  assert (Hstep : forall k, qpow g k < qpow g (S k)).
  { intros k. assert (1 <= qpow g k) by (apply qpow_ge_1; lra). cbn [qpow]. nra. }
  induction Hnm as [|m _ IH]; [apply Hstep|].
  pose proof (Hstep m). lra.
Qed.

Lemma clamp_inside (lo hi x : Q) : lo <= x <= hi -> clamp lo hi x == x.
Proof.
  intros [Hlo Hhi]. unfold clamp.
  destruct (Qle_bool x lo) eqn:E1.
  - apply Qle_bool_iff in E1. lra.
  - destruct (Qle_bool hi x) eqn:E2; [|reflexivity].
    apply Qle_bool_iff in E2. lra.
Qed.

Lemma clamp_below (lo hi x : Q) : x <= lo -> clamp lo hi x == lo.
Proof.
  intros H. unfold clamp. apply Qle_bool_iff in H. rewrite H. reflexivity.
Qed.

Lemma clamp_above (lo hi x : Q) : lo <= hi -> hi <= x -> clamp lo hi x == hi.
Proof.
  intros Hlh H. unfold clamp.
  destruct (Qle_bool x lo) eqn:E1.
  - apply Qle_bool_iff in E1. lra.
  - apply Qle_bool_iff in H. rewrite H. reflexivity.
Qed.
End PolicyFacts.

Section BackoffFacts.
Import Engine.
Local Open Scope Q_scope.

Lemma clamp_compat (lo hi x y : Q) : x == y -> clamp lo hi x == clamp lo hi y.
Proof.
  intros E. unfold clamp.
  destruct (Qle_bool x lo) eqn:X1; destruct (Qle_bool y lo) eqn:Y1;
    destruct (Qle_bool hi x) eqn:X2; destruct (Qle_bool hi y) eqn:Y2;
    repeat match goal with
           | H : Qle_bool _ _ = true |- _ => apply Qle_bool_iff in H
           | H : Qle_bool _ _ = false |- _ => apply Qle_bool_false in H
           end; lra.
Qed.

(** The delay with the power of the library in place of [qpow]. *)
Lemma backoff_formula (cfg : Config) (a : Z) :
  (0 <= a)%Z -> (0 <= capAttempts cfg)%Z ->
  backoff cfg a
  == clamp (minDelay cfg) (maxDelay cfg)
       (baseDelay cfg * growthFactor cfg ^ Z.min a (capAttempts cfg)).
Proof.
  intros Ha Hc. unfold backoff. apply clamp_compat.
  rewrite qpow_Qpower, Z2Nat.id by lia. reflexivity.
Qed.

Lemma Qpower_strict (g : Q) (a b : Z) :
  1 < g -> (0 <= a < b)%Z -> g ^ a < g ^ b.
Proof.
  intros Hg Hab.
  rewrite <- (Z2Nat.id a), <- (Z2Nat.id b), <- !qpow_Qpower by lia.
  apply qpow_strict; [exact Hg | lia].
Qed.



End BackoffFacts.
(* ================================================================== *)
(** * Further properties of the dashboard code *)
(* ================================================================== *)

Section RelativeTimeFacts.
Import Js Formatters.
Variable date_parse : string -> num.
Variable now : Z.

Lemma length_app (a b : string) :
  String.length (a ++ b) = (String.length a + String.length b)%nat.
Proof. induction a as [|c a IH]; cbn; [reflexivity | rewrite IH; reflexivity]. Qed.

Lemma suffixed_not_NA (a suffix : string) :
  (3 < String.length suffix)%nat -> a ++ suffix <> "N/A".
Proof.
  intros Hlen E. apply (f_equal String.length) in E.
  rewrite length_app in E. cbn in E. lia.
Qed.

(** A value that passes the guard never prints as "N/A". *)
Lemma formatRelativeTime_truthy (v : value) :
  truthy v = true -> formatRelativeTime date_parse now v <> "N/A".
Proof.
  intros Hv. unfold formatRelativeTime. rewrite Hv. cbn [negb]. cbv zeta.
  repeat match goal with
         | |- (if ?b then _ else _) <> _ => destruct b
         end;
    first [ discriminate | apply suffixed_not_NA; cbn; lia ].
Qed.

(** What a truthy argument prints as: a count, or NaN, with its unit. *)
Lemma formatRelativeTime_shape (v : value) :
  truthy v = true ->
  formatRelativeTime date_parse now v = "Just now"
  \/ exists (n : num) (unit : string),
       (unit = "m" \/ unit = "h" \/ unit = "d")
       /\ formatRelativeTime date_parse now v = num_to_string n ++ unit ++ " ago".
Proof.
  intros Hv. unfold formatRelativeTime. rewrite Hv. cbn [negb]. cbv zeta.
  repeat match goal with
         | |- context [if ?b then _ else _] => destruct b
         end;
    [ left; reflexivity
    | right; eexists; exists "m"; split; [auto | reflexivity]
    | right; eexists; exists "h"; split; [auto | reflexivity]
    | right; eexists; exists "d"; split; [auto | reflexivity] ].
Qed.

(** X1.  [formatRelativeTime] answers "N/A" for the falsy arguments and for
    no other: whatever else it is given, a date or not, the text is
    "Just now", or a count (NaN for what is no date) followed by "m", "h"
    or "d" and " ago". *)
Theorem formatRelativeTime_NA_iff_falsy (v : value) :
  (formatRelativeTime date_parse now v = "N/A" <-> truthy v = false)
  /\ (truthy v = true ->
      formatRelativeTime date_parse now v = "Just now"
      \/ exists (n : num) (unit : string),
           (unit = "m" \/ unit = "h" \/ unit = "d")
           /\ formatRelativeTime date_parse now v
              = num_to_string n ++ unit ++ " ago").
Proof.
  split; [|apply formatRelativeTime_shape].
  split.
  - intros E. destruct (truthy v) eqn:Hv; [|reflexivity].
    exfalso. exact (formatRelativeTime_truthy v Hv E).
  - intros Hv. unfold formatRelativeTime. rewrite Hv. reflexivity.
Qed.

(** X2.  For a date that parses, the count that is shown is never zero and
    stays inside its unit: minutes run from 1 to 59, hours from 1 to 23,
    days start at 1. *)
Theorem formatRelativeTime_units (s : string) (t : Z) :
  s <> "" ->
  new_Date date_parse (VStr s) = Int t ->
  let r := formatRelativeTime date_parse now (VStr s) in
  r = "Just now"
  \/ (exists n, 1 <= n <= 59 /\ r = dec n ++ "m ago")
  \/ (exists n, 1 <= n <= 23 /\ r = dec n ++ "h ago")
  \/ (exists n, 1 <= n /\ r = dec n ++ "d ago").
Proof.
  intros Hs Ht r. subst r. unfold formatRelativeTime.
  assert (Htruthy : truthy (VStr s) = true).
  { cbn. destruct (String.eqb_spec s ""); [contradiction | reflexivity]. }
  rewrite Htruthy, Ht. cbn [negb sub floor_div lt num_to_string]. cbv zeta.
  set (d := now - t).
  destruct (Z.ltb_spec (d / 60000) 1) as [H1 | H1]; [left; reflexivity|].
  destruct (Z.ltb_spec (d / 60000) 60) as [H2 | H2].
  { right; left. exists (d / 60000). split; [lia | reflexivity]. }
  assert (Hd : 3600000 <= d).
  { destruct (Z.lt_ge_cases d 3600000) as [Hlt | Hge]; [|exact Hge].
    assert (d / 60000 < 60) by (apply Z.div_lt_upper_bound; lia). lia. }
  assert (Hh : 1 <= d / 3600000) by (apply Z.div_le_lower_bound; lia).
  destruct (Z.ltb_spec (d / 3600000) 24) as [H3 | H3].
  { right; right; left. exists (d / 3600000). split; [lia | reflexivity]. }
  assert (Hd' : 86400000 <= d).
  { destruct (Z.lt_ge_cases d 86400000) as [Hlt | Hge]; [|exact Hge].
    assert (d / 3600000 < 24) by (apply Z.div_lt_upper_bound; lia). lia. }
  right; right; right. exists (d / 86400000).
  split; [apply Z.div_le_lower_bound; lia | reflexivity].
Qed.
End RelativeTimeFacts.

Lemma formatRelativeTime_NA_iff_falsy_witness :
  Formatters.formatRelativeTime (fun _ => Js.NaN) 0 (Js.VStr "soon") = "Just now"
  \/ exists (n : Js.num) (unit : string),
       (unit = "m" \/ unit = "h" \/ unit = "d")
       /\ Formatters.formatRelativeTime (fun _ => Js.NaN) 0 (Js.VStr "soon")
          = Js.num_to_string n ++ unit ++ " ago".
Proof.
  apply (proj2 (formatRelativeTime_NA_iff_falsy (fun _ => Js.NaN) 0 (Js.VStr "soon"))).
  reflexivity.
Defined.

Lemma formatRelativeTime_units_witness :
  let r := Formatters.formatRelativeTime (fun _ => Js.Int 0) 172800000
             (Js.VStr "1970-01-01") in
  r = "Just now"
  \/ (exists n, 1 <= n <= 59 /\ r = Js.dec n ++ "m ago")
  \/ (exists n, 1 <= n <= 23 /\ r = Js.dec n ++ "h ago")
  \/ (exists n, 1 <= n /\ r = Js.dec n ++ "d ago").
Proof.
  apply (formatRelativeTime_units (fun _ => Js.Int 0) 172800000 "1970-01-01" 0);
    [discriminate | reflexivity].
Defined.

Section RequestFacts.
Import Js Api Query.

(** X3.  Every call of [api.get] and [api.post] puts exactly one request on
    the wire, whatever comes back (an answer that is not ok, a body that
    is not JSON, no answer at all): nothing is retried.  The five read
    queries send a GET under the API base, without headers or body. *)
Theorem api_calls_send_one_request (endpoint data limit : value)
    (filters : option (list (string * value))) (net : network) (log : list request) :
  fst (get endpoint net log) = (log ++ [get_request endpoint])%list
  /\ fst (post endpoint data net log) = (log ++ [post_request endpoint data])%list
  /\ Forall (fun query : async value =>
               exists path,
                 fst (query net log)
                 = (log ++ [{| url := API_BASE ++ path; meth := GET;
                               headers := []; body := None |}])%list)
            [getDashboardStats; getActivities limit; getAgentStatuses;
             getAnalytics; getChaseItems filters].
Proof.
  split; [rewrite get_run; reflexivity|].
  split; [rewrite post_run; reflexivity|].
  repeat apply Forall_cons; try apply Forall_nil;
    eexists; unfold getDashboardStats, getActivities, getAgentStatuses, getAnalytics,
               getChaseItems; rewrite get_run; cbn [fst]; reflexivity.
Qed.

Lemma all_app (p : ascii -> bool) (a b : string) :
  all p (a ++ b) = all p a && all p b.
Proof.
  induction a as [|c a IH]; cbn; [reflexivity|].
  rewrite IH. apply andb_assoc.
Qed.

Lemma form_encode_char_safe (c : ascii) : all query_char (form_encode_char c) = true.
Proof. destruct c as [[] [] [] [] [] [] [] []]; reflexivity. Qed.

Lemma form_safe_query_char (c : ascii) : form_safe c = true -> query_char c = true.
Proof. intros H. unfold query_char. rewrite H. reflexivity. Qed.

Lemma form_encode_safe (s : string) : all query_char (form_encode s) = true.
Proof.
  induction s as [|c s IH]; cbn; [reflexivity|].
  rewrite all_app, form_encode_char_safe, IH. reflexivity.
Qed.

Lemma form_encode_kept (s : string) : all form_safe s = true -> form_encode s = s.
Proof.
  induction s as [|c s IH]; cbn; [reflexivity|].
  intros H. apply andb_prop in H as [Hc Hs].
  unfold form_encode_char. rewrite Hc, (IH Hs). reflexivity.
Qed.

Lemma serialize_safe (pairs : list (string * string)) :
  all query_char (serialize pairs) = true.
Proof.
  induction pairs as [|[k v] rest IH]; [reflexivity|].
  destruct rest as [|kv rest'].
  - cbn [serialize]. rewrite !all_app, !form_encode_safe. reflexivity.
  - change (serialize ((k, v) :: kv :: rest'))
      with (form_encode k ++ "=" ++ form_encode v ++ "&" ++ serialize (kv :: rest')).
    rewrite !all_app, !form_encode_safe, IH. reflexivity.
Qed.

(** X4.  Whatever the filters hold, the query string that [getChaseItems]
    appends to /chase-items? is made of letters, digits, [*-._], [+], [%],
    [=] and [&] only, so no filter value can break out of its parameter;
    a name and a value made of kept characters go through unchanged. *)
Theorem getChaseItems_query_safe (filters : option (list (string * value)))
    (net : network) (log : list request) :
  (exists q,
      fst (getChaseItems filters net log)
      = (log ++ [get_request (VStr ("/chase-items?" ++ q))])%list
      /\ all query_char q = true)
  /\ fst (getChaseItems None net log)
     = (log ++ [get_request (VStr "/chase-items?")])%list
  /\ forall k v,
       all form_safe k = true -> all form_safe v = true ->
       fst (getChaseItems (Some [(k, VStr v)]) net log)
       = (log ++ [get_request (VStr ("/chase-items?" ++ k ++ "=" ++ v))])%list.
Proof.
  split; [|split].
  - eexists. split; [unfold getChaseItems; rewrite get_run; reflexivity|].
    apply serialize_safe.
  - unfold getChaseItems. rewrite get_run. reflexivity.
  - intros k v Hk Hv. unfold getChaseItems. rewrite get_run.
    cbn [fst URLSearchParams map serialize snd to_string].
    rewrite (form_encode_kept k Hk), (form_encode_kept v Hv). reflexivity.
Qed.
End RequestFacts.

Lemma getChaseItems_query_safe_witness :
  fst (Query.getChaseItems (Some [("status", Js.VStr "overdue")]) (fun _ _ => None) [])
  = [Api.get_request (Js.VStr "/chase-items?status=overdue")].
Proof.
  apply (proj2 (proj2 (getChaseItems_query_safe None (fun _ _ => None) [])));
    reflexivity.
Defined.

Section LoaderFacts.
Import Js Api.

(** A loader around one query: the state made from the body on success,
    the old state after any failure. *)
Lemma load_one {A : Type} (e : value) (f : value -> A) (st : A)
    (net : network) (log : list request) :
  catch (bind (get e) (fun x => ret (f x))) (fun _ => ret st) net log
  = ((log ++ [get_request e])%list,
     Resolved (match settle (net log (get_request e)) with
               | Resolved v => f v
               | Rejected _ => st
               end)).
Proof.
  unfold catch, bind. rewrite get_run.
  destruct (settle (net log (get_request e))); reflexivity.
Qed.

(** A loader around two queries in a row. *)
Lemma load_two {A : Type} (e1 e2 : value) (f : value -> value -> A) (st : A)
    (net : network) (log : list request) :
  catch (bind (get e1) (fun x => bind (get e2) (fun y => ret (f x y))))
        (fun _ => ret st) net log
  = match settle (net log (get_request e1)) with
    | Rejected _ => ((log ++ [get_request e1])%list, Resolved st)
    | Resolved x =>
        ((log ++ [get_request e1; get_request e2])%list,
         Resolved (match settle (net (log ++ [get_request e1])%list (get_request e2)) with
                   | Resolved y => f x y
                   | Rejected _ => st
                   end))
    end.
Proof.
  unfold catch, bind. rewrite get_run.
  destruct (settle (net log (get_request e1))) as [x|err]; [|reflexivity].
  rewrite get_run, <- app_assoc. cbn [app].
  destruct (settle (net (log ++ [get_request e1])%list (get_request e2))); reflexivity.
Qed.

(** X5.  [loadData] of the agent monitor never rejects, and it replaces
    the agents and the activities together or not at all: when the status
    query fails the activities are not even requested, and when the
    activities query fails the statuses already received are dropped. *)
Theorem AgentMonitor_loadData_all_or_nothing (st : AgentMonitor.state)
    (net : network) (log : list request) :
  let r1 := get_request (VStr "/agents/status") in
  let r2 := get_request (VStr "/activities?limit=50") in
  exists log' st',
    AgentMonitor.loadData st net log = (log', Resolved st')
    /\ (forall e, settle (net log r1) = Rejected e ->
          st' = st /\ log' = (log ++ [r1])%list)
    /\ (forall statuses e,
          settle (net log r1) = Resolved statuses ->
          settle (net (log ++ [r1])%list r2) = Rejected e ->
          st' = st /\ log' = (log ++ [r1; r2])%list)
    /\ (forall statuses acts,
          settle (net log r1) = Resolved statuses ->
          settle (net (log ++ [r1])%list r2) = Resolved acts ->
          st' = {| AgentMonitor.agents := statuses; AgentMonitor.activities := acts |}
          /\ log' = (log ++ [r1; r2])%list).
Proof.
  intros r1 r2. unfold AgentMonitor.loadData, getAgentStatuses, getActivities.
  change (to_string (VNum (Int 50))) with "50". cbn [append].
  rewrite load_two. fold r1 r2.
  destruct (settle (net log r1)) as [x|e1].
  - destruct (settle (net (log ++ [r1])%list r2)) as [y|e2];
      do 2 eexists; (split; [reflexivity|]);
      repeat split; intros; try discriminate; congruence.
  - do 2 eexists. split; [reflexivity|].
    repeat split; intros; try discriminate; congruence.
Qed.

(** X6.  [loadData] of the dashboard asks for /chase-items?limit=10 and
    then for /activities?limit=10, never rejects, and stores both lists
    or, after a failure of either request, neither. *)
Theorem Dashboard_loadData_all_or_nothing (st : Dashboard.state)
    (net : network) (log : list request) :
  let r1 := get_request (VStr "/chase-items?limit=10") in
  let r2 := get_request (VStr "/activities?limit=10") in
  exists log' st',
    Dashboard.loadData st net log = (log', Resolved st')
    /\ (forall e, settle (net log r1) = Rejected e ->
          st' = st /\ log' = (log ++ [r1])%list)
    /\ (forall items e,
          settle (net log r1) = Resolved items ->
          settle (net (log ++ [r1])%list r2) = Rejected e ->
          st' = st /\ log' = (log ++ [r1; r2])%list)
    /\ (forall items acts,
          settle (net log r1) = Resolved items ->
          settle (net (log ++ [r1])%list r2) = Resolved acts ->
          st' = {| Dashboard.recentItems := items; Dashboard.recentActivities := acts |}
          /\ log' = (log ++ [r1; r2])%list).
Proof.
  intros r1 r2. unfold Dashboard.loadData, Query.getChaseItems, getActivities.
  change (to_string (VNum (Int 10))) with "10".
  change (Query.serialize (Query.URLSearchParams [("limit", VNum (Int 10))]))
    with "limit=10".
  cbn [append].
  rewrite load_two. fold r1 r2.
  destruct (settle (net log r1)) as [x|e1].
  - destruct (settle (net (log ++ [r1])%list r2)) as [y|e2];
      do 2 eexists; (split; [reflexivity|]);
      repeat split; intros; try discriminate; congruence.
  - do 2 eexists. split; [reflexivity|].
    repeat split; intros; try discriminate; congruence.
Qed.

(** X7.  [loadData] of the application sends one GET for
    /dashboard/stats and never rejects; whether the request succeeds or
    fails, the loading flag is off afterwards, so the spinner goes away;
    the statistics are the parsed body on success and stay as they were
    on failure, and the active tab is not touched. *)
Theorem App_loadData_clears_spinner (st : App.state) (net : network)
    (log : list request) :
  let r := get_request (VStr "/dashboard/stats") in
  exists st',
    App.loadData st net log = ((log ++ [r])%list, Resolved st')
    /\ App.loading st' = false
    /\ App.main st' <> App.Spinner
    /\ App.activeTab st' = App.activeTab st
    /\ (forall v, settle (net log r) = Resolved v -> App.stats st' = v)
    /\ (forall e, settle (net log r) = Rejected e -> App.stats st' = App.stats st).
Proof.
  intros r. unfold App.loadData, getDashboardStats. rewrite load_one. fold r.
  eexists. split; [reflexivity|].
  destruct (settle (net log r)) as [v|e]; cbn [App.loading App.activeTab App.stats];
    (split; [reflexivity|]);
    (split; [unfold App.main; cbn [App.loading];
             destruct (existsb _ _); discriminate|]);
    (split; [reflexivity|]);
    split; intros; congruence.
Qed.

(** X8.  [loadItems] of the timeline sends one GET and never rejects.  The
    filter "all" asks for /chase-items?status= (no restriction); any other
    filter is sent form-encoded as the status, and as it is when it is
    made of letters and digits, as the options of the select are.  The
    items are the parsed body on success and stay on failure; the filter
    is kept. *)
Theorem ChaseTimeline_loadItems_request (st : ChaseTimeline.state)
    (net : network) (log : list request) :
  let status := if (ChaseTimeline.filter st =? "all")%string then ""
                else ChaseTimeline.filter st in
  let r := get_request (VStr ("/chase-items?status=" ++ Query.form_encode status)) in
  exists st',
    ChaseTimeline.loadItems st net log = ((log ++ [r])%list, Resolved st')
    /\ ChaseTimeline.filter st' = ChaseTimeline.filter st
    /\ (ChaseTimeline.filter st = "all" ->
        r = get_request (VStr "/chase-items?status="))
    /\ (ChaseTimeline.filter st <> "all" ->
        Query.all Query.form_safe (ChaseTimeline.filter st) = true ->
        r = get_request (VStr ("/chase-items?status=" ++ ChaseTimeline.filter st)))
    /\ (forall v, settle (net log r) = Resolved v -> ChaseTimeline.items st' = v)
    /\ (forall e, settle (net log r) = Rejected e ->
          ChaseTimeline.items st' = ChaseTimeline.items st).
Proof.
  intros status r. unfold ChaseTimeline.loadItems, Query.getChaseItems.
  fold status.
  change (Query.serialize (Query.URLSearchParams [("status", VStr status)]))
    with ("status=" ++ Query.form_encode status).
  change ("/chase-items?" ++ "status=" ++ Query.form_encode status)
    with ("/chase-items?status=" ++ Query.form_encode status).
  rewrite load_one. fold r.
  eexists. split; [reflexivity|].
  split; [destruct (settle (net log r)); reflexivity|].
  split.
  { intros Hall. subst r status. rewrite Hall. reflexivity. }
  split.
  { intros Hnot Hsafe. subst r status.
    destruct (String.eqb_spec (ChaseTimeline.filter st) "all"); [contradiction|].
    rewrite (form_encode_kept _ Hsafe). reflexivity. }
  destruct (settle (net log r)) as [v|e]; split; intros; cbn; congruence.
Qed.

(** X9.  The loaders of the client list and of the analytics page send one
    GET (/clients, /analytics/overview) and never reject: the state
    becomes the parsed body on success and is left as it was when the
    request fails in any way. *)
Theorem single_query_loaders (clients analytics : value) (net : network)
    (log : list request) :
  let rc := get_request (VStr "/clients") in
  let ra := get_request (VStr "/analytics/overview") in
  ClientList.loadClients clients net log
  = ((log ++ [rc])%list,
     Resolved (match settle (net log rc) with
               | Resolved data => data
               | Rejected _ => clients
               end))
  /\ Analytics.loadAnalytics analytics net log
     = ((log ++ [ra])%list,
        Resolved (match settle (net log ra) with
                  | Resolved data => data
                  | Rejected _ => analytics
                  end)).
Proof.
  intros rc ra. unfold ClientList.loadClients, Analytics.loadAnalytics, getAnalytics.
  split; apply (load_one _ (fun x => x)).
Qed.
End LoaderFacts.

Section AgentCardFacts.
Import Js Api AgentMonitor Shapes.
Variable date_parse : string -> num.
Variable now : Z.
Variable unicode_toUpperCase : string -> string.

#[local] Abbreviation agentCard := (AgentMonitor.agentCard date_parse now unicode_toUpperCase).
#[local] Abbreviation cards := (AgentMonitor.cards date_parse now unicode_toUpperCase).
#[local] Abbreviation activeAgents :=
  (AgentMonitor.activeAgents date_parse now unicode_toUpperCase).
#[local] Abbreviation toUpperCase := (AgentMonitor.toUpperCase unicode_toUpperCase).

Lemma renderable_falsy (v : value) : truthy v = false -> renderable v = true.
Proof. destruct v; try reflexivity; discriminate. Qed.

Lemma agentCard_typed (agent : value) :
  typed agent = true ->
  exists c, agentCard agent = Resolved c
            /\ key c = prop agent "agent_id"
            /\ badgeText c = prop agent "status"
            /\ forallb renderable (children c) = displayable agent.
Proof.
  unfold typed. intros Hty.
  destruct agent as [ | | b | n | s | items | props]; try discriminate Hty.
  unfold AgentMonitor.agentCard.
  destruct (prop (VObj props) "agent_type"); try discriminate Hty.
  eexists. split; [reflexivity|]. split; [reflexivity|]. split; [reflexivity|].
  unfold children, displayable.
  cbn [badgeText lastAction itemsProcessed lastActionTime forallb].
  assert (Hla : renderable (or (prop (VObj props) "last_action") (VStr "None"))
                = renderable (prop (VObj props) "last_action")).
  { unfold or. destruct (truthy (prop (VObj props) "last_action")) eqn:E;
      [reflexivity|]. rewrite (renderable_falsy _ E). reflexivity. }
  assert (Htime : renderable
                    (match (if truthy (prop (VObj props) "last_action_time")
                            then inr (Formatters.formatRelativeTime date_parse now
                                        (prop (VObj props) "last_action_time"))
                            else inl (prop (VObj props) "last_action_time"))
                     with
                     | inl falsy => falsy
                     | inr text => VStr text
                     end) = true).
  { destruct (truthy (prop (VObj props) "last_action_time")) eqn:E;
      [reflexivity | apply renderable_falsy, E]. }
  rewrite Hla, Htime, !andb_true_r, andb_assoc. reflexivity.
Qed.

Lemma agentCard_untyped (agent : value) :
  typed agent = false -> agentCard agent = Rejected TypeError.
Proof.
  unfold typed, AgentMonitor.agentCard. intros Hty.
  destruct agent as [ | | b | n | s | items | props]; try reflexivity.
  destruct (prop (VObj props) "agent_type"); try reflexivity; discriminate Hty.
Qed.

Lemma cards_typed (items : list value) :
  forallb typed items = true ->
  exists cs,
    cards items = Resolved cs
    /\ map key cs = map (fun a => prop a "agent_id") items
    /\ map badgeText cs = map (fun a => prop a "status") items
    /\ forallb (fun c => forallb renderable (children c)) cs
       = forallb displayable items.
Proof.
  induction items as [|a items IH]; intros Hall.
  - exists []. repeat split.
  - cbn [forallb] in Hall. apply andb_prop in Hall as [Ha Hrest].
    destruct (agentCard_typed a Ha) as (c & Hc & Hk & Hb & Hr).
    destruct (IH Hrest) as (cs & Hcs & Hks & Hbs & Hrs).
    exists (c :: cs). cbn [AgentMonitor.cards map forallb].
    rewrite Hc, Hcs, Hk, Hb, Hks, Hbs, Hr, Hrs. repeat split.
Qed.

Lemma cards_untyped (items : list value) :
  forallb typed items = false -> cards items = Rejected TypeError.
Proof.
  induction items as [|a items IH]; intros Hall; [discriminate Hall|].
  cbn [forallb] in Hall. cbn [AgentMonitor.cards].
  destruct (typed a) eqn:Ha.
  - destruct (agentCard_typed a Ha) as (c & Hc & _). rewrite Hc.
    rewrite (IH Hall). reflexivity.
  - rewrite (agentCard_untyped a Ha). reflexivity.
Qed.


Lemma length_replace_first (from to : ascii) (s : string) :
  String.length (replace_first from to s) = String.length s.
Proof.
  induction s as [|c s IH]; [reflexivity|].
  cbn [replace_first]. destruct (Ascii.eqb c from); cbn; [reflexivity|].
  rewrite IH. reflexivity.
Qed.

Lemma length_upper_ascii (s : string) :
  String.length (upper_ascii s) = String.length s.
Proof. induction s as [|c s IH]; cbn; [reflexivity | rewrite IH; reflexivity]. Qed.

Lemma upper_char_not_lower (c : ascii) : lower (upper_char c) = false.
Proof. destruct c as [[] [] [] [] [] [] [] []]; reflexivity. Qed.

Lemma upper_ascii_no_lower (s : string) :
  Query.all (fun c => negb (lower c)) (upper_ascii s) = true.
Proof.
  induction s as [|c s IH]; cbn; [reflexivity|].
  rewrite upper_char_not_lower, IH. reflexivity.
Qed.

Lemma upper_ascii_app (a b : string) :
  upper_ascii (a ++ b) = upper_ascii a ++ upper_ascii b.
Proof. induction a as [|c a IH]; cbn; [reflexivity | rewrite IH; reflexivity]. Qed.

Lemma replace_first_at (from to : ascii) (a b : string) :
  Query.all (other_than from) a = true ->
  replace_first from to (a ++ String from b) = a ++ String to b.
Proof.
  induction a as [|c a IH]; cbn [append replace_first Query.all].
  - intros _. rewrite Ascii.eqb_refl. reflexivity.
  - intros H. apply andb_prop in H as [Hc Ha].
    unfold other_than in Hc. destruct (Ascii.eqb c from); [discriminate Hc|].
    rewrite (IH Ha). reflexivity.
Qed.

Lemma replace_first_none (from to : ascii) (s : string) :
  Query.all (other_than from) s = true -> replace_first from to s = s.
Proof.
  induction s as [|c s IH]; cbn [replace_first Query.all]; [reflexivity|].
  intros H. apply andb_prop in H as [Hc Hs].
  unfold other_than in Hc. destruct (Ascii.eqb c from); [discriminate Hc|].
  rewrite (IH Hs). reflexivity.
Qed.

Lemma ascii_only_replace_first (to : ascii) (s : string) :
  (N_of_ascii to <? 128)%N = true -> ascii_only s = true ->
  forall from, ascii_only (replace_first from to s) = true.
Proof.
  intros Hto Hs from. induction s as [|c s IH]; [reflexivity|].
  cbn [ascii_only] in Hs. apply andb_prop in Hs as [Hc Hrest].
  cbn [replace_first]. destruct (Ascii.eqb c from); cbn [ascii_only].
  - rewrite Hto, Hrest. reflexivity.
  - rewrite Hc, (IH Hrest). reflexivity.
Qed.

(** X11.  For an [agent_type] made of ASCII characters, the title of the
    agent card is as long as the [agent_type] and has no lower-case ASCII
    letter; only the first underscore becomes a space, so an agent type
    with two underscores keeps the second; a type without underscore is
    just upper-cased. *)
Theorem agentCard_title (agent : value) (ty : string) :
  prop agent "agent_type" = VStr ty ->
  ascii_only ty = true ->
  exists c,
    agentCard agent = Resolved c
    /\ String.length (title c) = String.length ty
    /\ Query.all (fun x => negb (lower x)) (title c) = true
    /\ (forall a b, Query.all (other_than "_") a = true -> ty = a ++ String "_" b ->
          title c = upper_ascii a ++ String " " (upper_ascii b))
    /\ (Query.all (other_than "_") ty = true -> title c = upper_ascii ty).
Proof.
  intros Hty Hascii.
  destruct agent as [ | | b | n | s | items | props]; try discriminate Hty.
  unfold AgentMonitor.agentCard. rewrite Hty.
  eexists. split; [reflexivity|]. cbn [title].
  unfold AgentMonitor.toUpperCase.
  rewrite (ascii_only_replace_first " " ty eq_refl Hascii "_").
  split; [rewrite length_upper_ascii, length_replace_first; reflexivity|].
  split; [apply upper_ascii_no_lower|].
  split.
  - intros a b Ha ->. rewrite (replace_first_at "_" " " a b Ha).
    rewrite upper_ascii_app. reflexivity.
  - intros Hnone. rewrite (replace_first_none "_" " " ty Hnone). reflexivity.
Qed.

(** X12.  An agent card shows a relative time exactly when the record has
    a truthy [last_action_time], and the text shown is then never "N/A";
    otherwise the card holds the falsy value itself in that place. *)
Theorem agentCard_relative_time (agent : value) (ty : string) :
  prop agent "agent_type" = VStr ty ->
  exists c,
    agentCard agent = Resolved c
    /\ (truthy (prop agent "last_action_time") = true ->
        exists text,
          lastActionTime c = inr text
          /\ text = Formatters.formatRelativeTime date_parse now
                      (prop agent "last_action_time")
          /\ text <> "N/A")
    /\ (truthy (prop agent "last_action_time") = false ->
        lastActionTime c = inl (prop agent "last_action_time")).
Proof.
  intros Hty.
  destruct agent as [ | | b | n | s | items | props]; try discriminate Hty.
  unfold AgentMonitor.agentCard. rewrite Hty.
  eexists. split; [reflexivity|]. cbn [lastActionTime].
  split; intros Ht; rewrite Ht.
  - eexists. split; [reflexivity|]. split; [reflexivity|].
    apply formatRelativeTime_truthy. exact Ht.
  - reflexivity.
Qed.
End AgentCardFacts.


Lemma agentCard_title_witness :
  exists c,
    AgentMonitor.agentCard (fun _ => Js.NaN) 0 (fun s => s) AgentMonitor.idle_agent
    = Api.Resolved c
    /\ AgentMonitor.title c = "LOA CHASER_V2".
Proof.
  destruct (agentCard_title (fun _ => Js.NaN) 0 (fun s => s) AgentMonitor.idle_agent
              "loa_chaser_v2" eq_refl eq_refl) as (c & Hc & _ & _ & Hfirst & _).
  exists c. split; [exact Hc|].
  apply (Hfirst "loa" "chaser_v2"); reflexivity.
Defined.

Lemma agentCard_relative_time_witness :
  exists c text,
    AgentMonitor.agentCard (fun _ => Js.Int 0) 7200000 (fun s => s) AgentMonitor.idle_agent
    = Api.Resolved c
    /\ AgentMonitor.lastActionTime c = inr text
    /\ text = "2h ago"
    /\ text <> "N/A".
Proof.
  destruct (agentCard_relative_time (fun _ => Js.Int 0) 7200000 (fun s => s)
              AgentMonitor.idle_agent "loa_chaser_v2" eq_refl) as (c & Hc & Hshown & _).
  destruct (Hshown eq_refl) as (text & Htext & Heq & Hna).
  exists c, text. repeat split; assumption.
Defined.
